(** * Clinical-data chatbot: text-to-SQL pipeline

    A shallow embedding of [chatbot_backend.py] (the interactive variant) and
    [streamlit_app.py] (the web variant), and the properties of the pipeline
    they share: prompt construction, cleanup of the SQL candidate, the
    per-turn control flow with its exception handlers, and the bounded
    conversation history.

    Conventions of the embedding.
    - A Python [str] is a [string]; one [ascii] stands for one code point
      below 256, which covers every literal the embedding keeps.
    - The LLM client and the database are oracles over an abstract world
      [W]: each call takes the world, and gives back an outcome and the next
      world.  Every call is also written to a log, so that the calls a turn
      makes can be counted.
    - A Python exception is a value of [exn], carried by the [Raise] outcome
      of the monad [M].
    - Standard output is an oracle too, for the one line that does not fit
      every encoding: the diagnostic print of the interactive turn, which
      starts with the robot face U+1F916.  The other lines the interactive
      variant prints are made of the text it handles, and are not
      modelled. *)

From Stdlib Require Import String Ascii List Bool Arith Lia ZArith DecimalString.
Import ListNotations.
Local Open Scope string_scope.

Set Implicit Arguments.

(** ** Python string operations *)

Module PyStr.

(** The characters the source needs and a string literal cannot hold. *)
Definition nl : string := String (ascii_of_nat 10) EmptyString.
Definition dq : string := String (ascii_of_nat 34) EmptyString.
Definition backtick : string := String (ascii_of_nat 96) EmptyString.

(** [str.isspace] on one code point below 256: TAB..CR, FS..US, space, NEL
    and the no-break space. *)
Definition isspace (c : ascii) : bool :=
  let n := nat_of_ascii c in
  (((9 <=? n) && (n <=? 13)) || ((28 <=? n) && (n <=? 32))
   || (n =? 133) || (n =? 160))%nat.

(** [str.lower] on one code point below 256: A..Z and the Latin-1 capitals
    (all of 192..222 but the multiplication sign 215) move up by 32. *)
Definition lower_char (c : ascii) : ascii :=
  let n := nat_of_ascii c in
  if (((65 <=? n) && (n <=? 90))
      || ((192 <=? n) && (n <=? 222) && negb (n =? 215)))%nat
  then ascii_of_nat (n + 32) else c.

Fixpoint lower (s : string) : string :=
  match s with
  | EmptyString => EmptyString
  | String c r => String (lower_char c) (lower r)
  end.

Definition is_empty (s : string) : bool :=
  match s with EmptyString => true | String _ _ => false end.

Fixpoint lstrip (s : string) : string :=
  match s with
  | EmptyString => EmptyString
  | String c r => if isspace c then lstrip r else s
  end.

(** Trailing whitespace goes: a character is dropped when it is a space and
    nothing is left of what follows it. *)
Fixpoint rstrip (s : string) : string :=
  match s with
  | EmptyString => EmptyString
  | String c r =>
      let r' := rstrip r in
      if isspace c && is_empty r' then EmptyString else String c r'
  end.

(** [s.strip()] *)
Definition strip (s : string) : string := rstrip (lstrip s).

(** [s.startswith(p)] *)
Fixpoint startswith (p s : string) : bool :=
  match p, s with
  | EmptyString, _ => true
  | String _ _, EmptyString => false
  | String a p', String b s' => Ascii.eqb a b && startswith p' s'
  end.

(** [sub in s] *)
Fixpoint contains (sub s : string) : bool :=
  startswith sub s
  || match s with
     | EmptyString => false
     | String _ r => contains sub r
     end.

(** [s.replace(old, new)] for a non-empty [old]: occurrences are found from
    the left and do not overlap.  [skip] counts the characters of a matched
    occurrence that are still to be passed over. *)
Fixpoint replace_from (old new : string) (skip : nat) (s : string) : string :=
  match s with
  | EmptyString => EmptyString
  | String c r =>
      match skip with
      | S k => replace_from old new k r
      | O =>
          if startswith old s
          then new ++ replace_from old new (String.length old - 1) r
          else String c (replace_from old new 0 r)
      end
  end.

Definition replace (old new s : string) : string := replace_from old new 0 s.

(** [sep.join(parts)] *)
Fixpoint join (sep : string) (parts : list string) : string :=
  match parts with
  | [] => EmptyString
  | [x] => x
  | x :: rest => x ++ sep ++ join sep rest
  end.

Definition starts_with_space (s : string) : bool :=
  match s with EmptyString => false | String c _ => isspace c end.

Fixpoint ends_with_space (s : string) : bool :=
  match s with
  | EmptyString => false
  | String c EmptyString => isspace c
  | String _ r => ends_with_space r
  end.

Fixpoint has_char (c : ascii) (s : string) : bool :=
  match s with
  | EmptyString => false
  | String a r => Ascii.eqb c a || has_char c r
  end.

End PyStr.
Import PyStr.

(** ** The cleanup of the SQL candidate

    The expression applied to [response.text] in [_get_sql_from_llm] and in
    [get_sql_from_llm]: [strip()], then [replace] of the backtick by the
    empty string, then [replace] of the three letters sql by the empty
    string. *)
Definition cleanup (text : string) : string :=
  replace "sql" "" (replace backtick "" (strip text)).

Definition fenced_answer : string :=
  "```sql" ++ nl ++ "SELECT 1" ++ nl ++ "```".

(** ** Exceptions, query results and the effect monad *)

(** The exception classes the handlers of the two programs tell apart. *)
Inductive exn : Type :=
| NotFound (msg : string)        (* google.api_core.exceptions.NotFound *)
| SqliteError (msg : string)     (* sqlite3.Error and its subclasses *)
| OtherException (msg : string). (* every other Exception *)

(** [str(e)] *)
Definition str_exn (e : exn) : string :=
  match e with
  | NotFound msg | SqliteError msg | OtherException msg => msg
  end.

Inductive res (A : Type) : Type :=
| Ret (a : A)
| Raise (e : exn).
Arguments Raise {A} e.

(** A cell of a result row, as [sqlite3] hands it over.  Reals and blobs
    carry the text [str] gives for them. *)
Inductive value : Type :=
| VNone
| VInt (z : Z)
| VText (s : string)
| VReal (display : string)
| VBlob (display : string).

(** [str(v)], also what an f-string does with a cell. *)
Definition str_value (v : value) : string :=
  match v with
  | VNone => "None"
  | VInt z => NilZero.string_of_int (Z.to_int z)
  | VText s => s
  | VReal d | VBlob d => d
  end.

(** What a cursor holds after [execute]: the column names of
    [cursor.description] ([None] for a statement that returns no rows), and
    the rows [fetchall] gives. *)
Record cursor_result : Type := {
  description : option (list string);
  rows : list (list value)
}.

(** What [model.generate_content(prompt)] followed by [response.text] can
    do.  The LLM client never raises a database error. *)
Inductive llm_outcome : Type :=
| Generated (text : string)
| ModelNotFound (msg : string)      (* raises NotFound *)
| GenerationFailed (msg : string).  (* raises another Exception *)

(** What [print] can do with the diagnostic line of the interactive turn:
    write it, or raise (UnicodeEncodeError on a standard output whose
    encoding has no robot face, as cp1252; an error of the stream). *)
Inductive print_outcome : Type :=
| Printed
| PrintFails (msg : string).

(** The calls a turn makes, in the order it makes them. *)
Inductive event : Type :=
| EvCatalog                     (* the query on sqlite_master *)
| EvGenerate (prompt : string)  (* one LLM call *)
| EvExecute (sql : string)      (* the SQL candidate run on the database *)
| EvDiagnostic (sql : string).  (* the generated SQL shown to the user *)

Definition is_generate (ev : event) : bool :=
  match ev with EvGenerate _ => true | _ => false end.

Definition is_execute (ev : event) : bool :=
  match ev with EvExecute _ => true | _ => false end.

Definition llm_calls (l : list event) : nat := length (filter is_generate l).
Definition executor_calls (l : list event) : nat := length (filter is_execute l).

Section Effects.
Context {W : Type}.

(** The [model] object. *)
Record Model : Type := {
  generate : string -> W -> llm_outcome * W
}.

(** The [db_connection] object with its cursor: the catalog query gives the
    [sql] column of [sqlite_master], [run] executes one statement. *)
Record Connection : Type := {
  catalog : W -> res (list string) * W;
  run : string -> W -> res cursor_result * W
}.

Record state : Type := {
  world : W;
  log : list event
}.

Definition M (A : Type) : Type := state -> res A * state.

Definition ret {A} (a : A) : M A := fun st => (Ret a, st).

Definition raise {A} (e : exn) : M A := fun st => (Raise e, st).

Definition bind {A B} (m : M A) (k : A -> M B) : M B :=
  fun st =>
    match m st with
    | (Ret a, st') => k a st'
    | (Raise e, st') => (Raise e, st')
    end.

Definition lift {A} (r : res A) : M A := fun st => (r, st).

(** [try: body except Exception as e: handler(e)] *)
Definition try_except {A} (body : M A) (handler : exn -> M A) : M A :=
  fun st =>
    match body st with
    | (Ret a, st') => (Ret a, st')
    | (Raise e, st') => handler e st'
    end.

Definition record (ev : event) (w : W) (st : state) : state :=
  {| world := w; log := log st ++ [ev] |}.

(** [model.generate_content(prompt)] and the read of [response.text]. *)
Definition generate_content (model : Model) (prompt : string) : M string :=
  fun st =>
    let (o, w) := generate model prompt (world st) in
    let st' := record (EvGenerate prompt) w st in
    match o with
    | Generated text => (Ret text, st')
    | ModelNotFound msg => (Raise (NotFound msg), st')
    | GenerationFailed msg => (Raise (OtherException msg), st')
    end.

(** [cursor.execute] of the catalog query, [fetchall], and the first column
    of each row. *)
Definition fetch_schema_statements (db : Connection) : M (list string) :=
  fun st =>
    let (r, w) := catalog db (world st) in
    (r, record EvCatalog w st).

(** [cursor.execute(sql_query)] and [cursor.fetchall()]. *)
Definition cursor_execute (db : Connection) (sql : string) : M cursor_result :=
  fun st =>
    let (r, w) := run db sql (world st) in
    (r, record (EvExecute sql) w st).

(** The generated SQL shown on the page by [st.code], in the web variant:
    it builds an element of the page, and raises nothing. *)
Definition show_sql (sql : string) : M unit :=
  fun st => (Ret tt, record (EvDiagnostic sql) (world st) st).

(** Standard output: [print_line sql] stands for the print of the robot
    face, the words Generated SQL, a colon, a space and [sql]. *)
Class Console : Type := {
  print_line : string -> W -> print_outcome * W
}.

(** The diagnostic print of the interactive turn.  The SQL counts as shown
    only when the print has succeeded. *)
Definition print_generated_sql {console : Console} (sql : string) : M unit :=
  fun st =>
    let (o, w) := print_line sql (world st) in
    match o with
    | Printed => (Ret tt, record (EvDiagnostic sql) w st)
    | PrintFails msg =>
        (Raise (OtherException msg), {| world := w; log := log st |})
    end.

End Effects.

Arguments Model W : clear implicits.
Arguments Console W : clear implicits.
Arguments Connection W : clear implicits.
Arguments state W : clear implicits.
Arguments M W A : clear implicits.

Declare Scope py_scope.
Notation "x <- m ;; k" := (bind m (fun x => k))
  (at level 61, m at next level, right associativity) : py_scope.
Notation "m ;;; k" := (bind m (fun _ => k))
  (at level 61, right associativity) : py_scope.
Local Open Scope py_scope.

(** ** The interactive variant: chatbot_backend.py *)

(** One entry of [chat_history]: a dict with the keys role and parts. *)
Record message : Type := {
  role : string;
  parts : list string
}.

(** The f-string of the two comprehensions over [chat_history]: role, a
    colon and a space, then [msg['parts'][0]], which raises IndexError on an
    empty list. *)
Definition render_message (msg : message) : res string :=
  match parts msg with
  | p :: _ => Ret (role msg ++ ": " ++ p)
  | [] => Raise (OtherException "list index out of range")
  end.

Fixpoint render_messages (chat_history : list message) : res (list string) :=
  match chat_history with
  | [] => Ret []
  | msg :: rest =>
      match render_message msg with
      | Raise e => Raise e
      | Ret line =>
          match render_messages rest with
          | Raise e => Raise e
          | Ret lines => Ret (line :: lines)
          end
      end
  end.

(** [history_str]: the rendered entries joined by newlines. *)
Definition history_str (chat_history : list message) : res string :=
  match render_messages chat_history with
  | Ret lines => Ret (join nl lines)
  | Raise e => Raise e
  end.

(** The pieces of the prompt of [_get_sql_from_llm], top to bottom. *)
Definition sql_instructions : string :=
  "You are a Text-to-SQL expert. Your task is to convert a user's question into a valid SQLite query." ++ nl ++
  "You must only output the SQL query and nothing else. Do not add any explanation or markdown." ++ nl ++
  "If the user's question is not a question that can be answered by querying the database (e.g., " ++ dq ++ "hello" ++ dq ++ ", " ++ dq ++ "how are you" ++ dq ++ ")," ++ nl ++
  "simply respond with the word " ++ dq ++ "NOT_A_QUERY" ++ dq ++ ".".

Definition sql_rules : string :=
  "Important Querying Rules:" ++ nl ++
  "- **JOINs**: Your default join MUST be a `LEFT JOIN` from `Demography` to `AdverseEvents`. Only use `INNER JOIN` when the user's question is ONLY about the events themselves (e.g., " ++ dq ++ "count all headaches" ++ dq ++ ")." ++ nl ++
  "- **ALIASES**: You MUST use `dm` for `Demography` and `ae` for `AdverseEvents`." ++ nl ++
  "- **PERCENTAGE QUERIES**: For questions about the " ++ dq ++ "percentage of subjects with events" ++ dq ++ ", you MUST use the following query structure. This is non-negotiable." ++ nl ++
  "  - **Example**: `SELECT CAST(COUNT(DISTINCT ae.patient_id) AS REAL) * 100 / COUNT(DISTINCT dm.patient_id) FROM Demography dm LEFT JOIN AdverseEvents ae ON dm.patient_id = ae.patient_id`".

Definition sql_prompt (schema history user_question : string) : string :=
  nl ++
  sql_instructions ++ nl ++
  nl ++
  "Database Schema:" ++ nl ++
  "---" ++ nl ++
  schema ++ nl ++
  "---" ++ nl ++
  nl ++
  sql_rules ++ nl ++
  nl ++
  "Conversation History (for context on follow-up questions):" ++ nl ++
  "---" ++ nl ++
  history ++ nl ++
  "---" ++ nl ++
  nl ++
  "User Question:" ++ nl ++
  "---" ++ nl ++
  user_question ++ nl ++
  "---" ++ nl ++
  nl ++
  "SQL Query:" ++ nl.

(** The prompt of [_format_response_naturally]. *)
Definition answer_prompt (history question data_string : string) : string :=
  nl ++
  "You are a helpful chatbot assistant. Your task is to answer the user's question based on the data provided." ++ nl ++
  "Formulate a friendly, conversational, and natural language response. Do not just repeat the data in a table." ++ nl ++
  nl ++
  "Conversation History:" ++ nl ++
  "---" ++ nl ++
  history ++ nl ++
  "---" ++ nl ++
  nl ++
  "User's Original Question: " ++ dq ++ question ++ dq ++ nl ++
  nl ++
  "Data from Database:" ++ nl ++
  "---" ++ nl ++
  data_string ++ nl ++
  "---" ++ nl ++
  nl ++
  "Your friendly response:" ++ nl.

(** The header line, then one line per row, each closed by a newline. *)
Definition data_block (results : list (list value)) (column_names : list string) : string :=
  fold_left
    (fun data_string row => data_string ++ join ", " (map str_value row) ++ nl)
    results
    (join ", " column_names ++ nl).

Definition not_a_query_reply : string :=
  "I can only answer questions related to the clinical database. Please ask me about patients or adverse events.".

Definition no_results_reply : string := "I found no results for your query.".

Definition is_nil {A} (l : list A) : bool :=
  match l with [] => true | _ :: _ => false end.

(** The three except clauses of [query_database], tried in this order.  The
    second reads the local [sql_query], which is bound only once
    [_get_sql_from_llm] has returned: [None] stands for the unbound name. *)
Definition except_clauses {W} (sql_query : option string) (e : exn) : M W string :=
  match e with
  | NotFound error_message =>
      if contains "v1beta" error_message
      then ret ("API Error: The model was not found. This is caused by an old version of the 'google-generativeai' library. Please ensure your virtual environment is active and you have run 'pip install --upgrade google-generativeai'. Details: " ++ error_message)
      else ret ("Sorry, it seems the AI model I'm trying to use is not available. Please check the model name. Details: " ++ error_message)
  | SqliteError msg =>
      match sql_query with
      | Some sql =>
          ret ("I couldn't run the query. The database returned an error: " ++ msg ++ nl ++ "Faulty SQL was: " ++ sql)
      | None =>
          raise (OtherException "cannot access local variable 'sql_query' where it is not associated with a value")
      end
  | OtherException msg => ret ("An unexpected error occurred: " ++ msg)
  end.

Section Backend.
Context {W : Type} {console : Console W}.

Definition _format_response_naturally (model : Model W) (question : string)
    (results : list (list value)) (column_names : list string)
    (chat_history : list message) : M W string :=
  if (length results =? 1)%nat && (length column_names =? 1)%nat then
    match results with
    | (v :: _) :: _ => ret ("The answer is: " ++ str_value v)
    | _ => raise (OtherException "tuple index out of range")
    end
  else
    let data_string := data_block results column_names in
    history <- lift (history_str chat_history) ;;
    text <- generate_content model (answer_prompt history question data_string) ;;
    ret (strip text).

Definition _get_sql_from_llm (model : Model W) (user_question schema : string)
    (chat_history : list message) : M W string :=
  history <- lift (history_str chat_history) ;;
  text <- generate_content model (sql_prompt schema history user_question) ;;
  ret (cleanup text).

(** The try block from the sentinel test on, once [sql_query] is bound. *)
Definition answer_query (model : Model W) (user_question : string)
    (db_connection : Connection W) (chat_history : list message)
    (sql_query : string) : M W string :=
  if contains "NOT_A_QUERY" sql_query then ret not_a_query_reply
  else
    print_generated_sql sql_query ;;;
    cur <- cursor_execute db_connection sql_query ;;
    let results := rows cur in
    if is_nil results then ret no_results_reply
    else
      column_names <-
        lift match description cur with
             | Some names => Ret names
             | None => Raise (OtherException "'NoneType' object is not iterable")
             end ;;
      _format_response_naturally model user_question results column_names chat_history.

(** The schema is fetched before the try block opens.  The block is split
    where [sql_query] is assigned, so that the except clauses see whether
    the name is bound; with the name bound no clause raises, so the clauses
    are run at most once. *)
Definition query_database (model : Model W) (user_question : string)
    (db_connection : Connection W) (chat_history : list message) : M W string :=
  schema_statements <- fetch_schema_statements db_connection ;;
  let schema := join nl schema_statements in
  try_except
    (sql_query <- _get_sql_from_llm model user_question schema chat_history ;;
     try_except
       (answer_query model user_question db_connection chat_history sql_query)
       (except_clauses (Some sql_query)))
    (except_clauses None).

(** *** The interactive loop *)

Definition MAX_HISTORY_TURNS : nat := 5.

(** [l[-n:]] for a positive [n]. *)
Definition last_n {A} (n : nat) (l : list A) : list A :=
  skipn (length l - n) l.

Definition user_entry (text : string) : message :=
  {| role := "user"; parts := [text] |}.

Definition model_entry (text : string) : message :=
  {| role := "model"; parts := [text] |}.

Definition is_quit (user_question : string) : bool :=
  existsb (String.eqb (lower user_question)) ["quit"; "exit"].

(** The two appends and the trim that close an iteration. *)
Definition remember (chat_history : list message) (user_question response : string)
    : list message :=
  let chat_history := (chat_history ++ [user_entry user_question])%list in
  let chat_history := (chat_history ++ [model_entry response])%list in
  if (MAX_HISTORY_TURNS * 2 <? length chat_history)%nat
  then last_n (MAX_HISTORY_TURNS * 2) chat_history
  else chat_history.

(** One iteration of [while True], from the line that [input] returned:
    [None] is the [break], [Some] the history the next iteration starts
    from. *)
Definition loop_body (model : Model W) (db_conn : Connection W)
    (user_question : string) (chat_history : list message)
    : M W (option (list message)) :=
  if is_quit user_question then ret None
  else
    response <- query_database model user_question db_conn chat_history ;;
    ret (Some (remember chat_history user_question response)).

(** The loop over the lines the user types.  When they run out, [input]
    raises EOFError. *)
Fixpoint interactive_loop (model : Model W) (db_conn : Connection W)
    (lines : list string) (chat_history : list message) : M W (list message) :=
  match lines with
  | [] => raise (OtherException "EOF when reading a line")
  | user_question :: rest =>
      next <- loop_body model db_conn user_question chat_history ;;
      match next with
      | None => ret chat_history
      | Some chat_history' => interactive_loop model db_conn rest chat_history'
      end
  end.

End Backend.

(** *** Start-up: [setup_database] and the main block *)

(** What opening and reading the schema file can do. *)
Inductive file_read : Type :=
| FileNotFound                  (* raises FileNotFoundError *)
| ReadFails (e : exn)           (* raises another error *)
| Contents (sql_script : string).

(** How a run of the script ends: [sys.exit] with a status or with a
    message, an exception nobody caught, or the close of the connection
    after the loop, with the history the loop held. *)
Inductive run_end : Type :=
| Exit (status : nat)
| ExitWith (msg : string)
| Traceback (e : exn)
| Closed (chat_history : list message).

Section Startup.
Context {W : Type} {console : Console W}.

(** What the machine answers at start-up. *)
Record Environment : Type := {
  (* metadata.version: None when the package is not installed, else
     whether the installed version is below MIN_GG_VERSION *)
  gg_version_too_old : option bool;
  (* os.environ.get on GEMINI_API_KEY, after load_dotenv *)
  api_key : option string;
  (* genai.configure and the construction of the model *)
  configure : res (Model W);
  (* open and read of the schema file *)
  schema_file : file_read;
  (* cur.executescript on the fresh in-memory database *)
  executescript : string -> res unit;
  (* the connection once the script has run *)
  connection : Connection W
}.

(** [setup_database]: [None] on a missing file and on a database error of
    the script; every other error leaves the function.  The clause for
    database errors prints [sql_script], a name that is bound only once the
    file has been read. *)
Definition setup_database (env : Environment) : res (option (Connection W)) :=
  match schema_file env with
  | FileNotFound => Ret None
  | ReadFails (SqliteError _) =>
      Raise (OtherException "cannot access local variable 'sql_script' where it is not associated with a value")
  | ReadFails e => Raise e
  | Contents sql_script =>
      match executescript env sql_script with
      | Ret _ => Ret (Some (connection env))
      | Raise (SqliteError _) => Ret None
      | Raise e => Raise e
      end
  end.

Definition exiting : string :=
  "Exiting: Database or AI Model could not be initialized.".

(** The main block.  The name [model] is assigned only when the key is
    there: the outer [option] is the binding of the name, the inner one the
    [None] a failed configuration stores in it.  [db_conn and model] reads
    [model] only when [db_conn] is a connection. *)
Definition main (env : Environment) (lines : list string)
    : state W -> run_end * state W :=
  fun st =>
    match gg_version_too_old env with
    | None => (Exit 1, st)
    | Some true => (Exit 1, st)
    | Some false =>
        let model : option (option (Model W)) :=
          match api_key env with
          | None => None
          | Some key =>
              if is_empty key then None
              else Some match configure env with
                        | Ret m => Some m
                        | Raise _ => None
                        end
          end in
        match setup_database env with
        | Raise e => (Traceback e, st)
        | Ret None => (ExitWith exiting, st)
        | Ret (Some db_conn) =>
            match model with
            | None => (Traceback (OtherException "name 'model' is not defined"), st)
            | Some None => (ExitWith exiting, st)
            | Some (Some model) =>
                match interactive_loop model db_conn lines [] st with
                | (Ret chat_history, st') => (Closed chat_history, st')
                | (Raise e, st') => (Traceback e, st')
                end
            end
        end
    end.

End Startup.

Arguments Environment W : clear implicits.

(** ** The web variant: streamlit_app.py *)

Module Web.

(** One entry of [st.session_state.messages]. *)
Record message : Type := {
  role : string;
  content : string
}.

Definition sql_instructions : string :=
  "    You are a Text-to-SQL expert. Your task is to convert a user's question into a valid SQLite query." ++ nl ++
  "    You must only output the SQL query and nothing else. Do not add any explanation or markdown." ++ nl ++
  "    If the user's question is not a question that can be answered by querying the database (e.g., " ++ dq ++ "hello" ++ dq ++ ", " ++ dq ++ "how are you" ++ dq ++ ")," ++ nl ++
  "    simply respond with the word " ++ dq ++ "NOT_A_QUERY" ++ dq ++ ".".

Definition sql_rules : string :=
  "    Important Querying Rules:" ++ nl ++
  "    - You MUST use the table aliases `dm` for the demography table, `ae` for the adverse events table, and `vs` for the vitals table.".

(** The prompt of [get_sql_from_llm]. *)
Definition sql_prompt (schema user_question : string) : string :=
  nl ++
  sql_instructions ++ nl ++
  nl ++
  "    Database Schema:" ++ nl ++
  "    ---" ++ nl ++
  "    " ++ schema ++ nl ++
  "    ---" ++ nl ++
  nl ++
  sql_rules ++ nl ++
  nl ++
  "    User Question: " ++ dq ++ user_question ++ dq ++ nl ++
  "    SQL Query:" ++ nl ++
  "    ".

(** The prompt of [format_response_naturally]. *)
Definition answer_prompt (question data_string : string) : string :=
  nl ++
  "    You are a helpful chatbot assistant. Your task is to answer the user's question based on the data provided." ++ nl ++
  "    Formulate a friendly, conversational, and natural language response. Do not just repeat the data in a table." ++ nl ++
  nl ++
  "    User's Original Question: " ++ dq ++ question ++ dq ++ nl ++
  "    Data from Database:" ++ nl ++
  "    ---" ++ nl ++
  "    " ++ data_string ++ nl ++
  "    ---" ++ nl ++
  "    Your friendly response:" ++ nl ++
  "    ".

(** The prompt of the conversational call on a sentinel. *)
Definition small_talk_prompt (prompt : string) : string :=
  "You are a helpful chatbot. The user said: '" ++ prompt ++ "'. Respond conversationally.".

(** The header line, a newline, then the rows joined by newlines. *)
Definition data_block (results : list (list value)) (column_names : list string) : string :=
  join ", " column_names ++ nl
  ++ join nl (map (fun row => join ", " (map str_value row)) results).

Definition greeting : message :=
  {| role := "assistant";
     content := "Hello! I am an AI clinical data assistant. How can I help you?" |}.

Section Handler.
Context {W : Type}.

Definition get_sql_from_llm (model : Model W) (user_question schema : string)
    : M W string :=
  text <- generate_content model (sql_prompt schema user_question) ;;
  ret (cleanup text).

Definition format_response_naturally (model : Model W) (question : string)
    (results : list (list value)) (column_names : list string) : M W string :=
  if is_nil results then ret no_results_reply
  else
    text <- generate_content model
              (answer_prompt question (data_block results column_names)) ;;
    ret (strip text).

(** The try block of the chat handler with its one except clause: the reply
    of the turn, [response_text]. *)
Definition chat_turn (model : Model W) (db_connection : Connection W)
    (prompt : string) : M W string :=
  try_except
    (schema_statements <- fetch_schema_statements db_connection ;;
     let schema := join nl schema_statements in
     sql_query <- get_sql_from_llm model prompt schema ;;
     if contains "NOT_A_QUERY" sql_query then
       generate_content model (small_talk_prompt prompt)
     else
       show_sql sql_query ;;;
       cur <- cursor_execute db_connection sql_query ;;
       let results := rows cur in
       let column_names :=
         match description cur with Some names => names | None => [] end in
       format_response_naturally model prompt results column_names)
    (fun e => ret ("An error occurred: " ++ str_exn e)).

(** The chat handler, from the text [st.chat_input] returned.  An empty
    text is falsy and skips the handler.  [None] stands for the [None] that
    [get_model] and [get_db_connection] return on failure: the handler then
    reports the error and reads [response_text], which was never bound. *)
Definition chat_handler (model : option (Model W))
    (db_connection : option (Connection W)) (prompt : string)
    (messages : list message) : M W (list message) :=
  if is_empty prompt then ret messages
  else
    let messages :=
      (messages ++ [{| role := "user"; content := prompt |}])%list in
    match db_connection, model with
    | Some db_connection, Some model =>
        response_text <- chat_turn model db_connection prompt ;;
        ret (messages ++ [{| role := "assistant"; content := response_text |}])%list
    | _, _ => raise (OtherException "name 'response_text' is not defined")
    end.

End Handler.

End Web.

(** ** A small world to run the two programs on

    The schema of the deployment in two tables, a model that answers by
    keyword, and a database with three patients. *)

Module Demo.

Definition start : state unit := {| world := tt; log := [] |}.

(** A standard output in UTF-8: every line is written. *)
#[global] Instance console : Console unit := {|
  print_line := fun _ w => (Printed, w)
|}.

(** A standard output in cp1252: the robot face cannot be encoded. *)
Definition legacy_console : Console unit := {|
  print_line := fun _ w =>
    (PrintFails "'charmap' codec can't encode character '\U0001f916' in position 0: character maps to <undefined>", w)
|}.

(** Five turns behind: a history that fills the window. *)
Definition busy_history : list message :=
  flat_map (fun q => [user_entry q; model_entry "The answer is: 3"])
    ["How many patients?"; "How many events?"; "How many women?";
     "How many men?"; "How many sites?"].

Definition model : Model unit := {|
  generate := fun prompt w =>
    if contains "Your friendly response" prompt then
      (Generated " Here is what I found for you. ", w)
    else if contains "Respond conversationally" prompt then
      (Generated "Good morning! Ask me about the patients.", w)
    else if contains "Good morning" prompt then
      (Generated "NOT_A_QUERY", w)
    else if contains "visits" prompt then
      (Generated "SELECT * FROM Nonexistent", w)
    else if contains "older than 90" prompt then
      (Generated "SELECT patient_id, age FROM Demography WHERE age > 90", w)
    else if contains "List" prompt then
      (Generated "SELECT patient_id, age FROM Demography", w)
    else
      (Generated "SELECT COUNT(*) FROM Demography", w)
|}.

(** A model whose service is down. *)
Definition offline_model : Model unit := {|
  generate := fun _ w => (GenerationFailed "503 The service is unavailable.", w)
|}.

Definition db : Connection unit := {|
  catalog := fun w =>
    (Ret ["CREATE TABLE Demography(patient_id, age)";
          "CREATE TABLE AdverseEvents(patient_id, event)"], w);
  run := fun sql w =>
    if contains "Nonexistent" sql then
      (Raise (SqliteError "no such table: Nonexistent"), w)
    else if contains "COUNT(*)" sql then
      (Ret {| description := Some ["COUNT(*)"]; rows := [[VInt 3]] |}, w)
    else if contains "age > 90" sql then
      (Ret {| description := Some ["patient_id"; "age"]; rows := [] |}, w)
    else
      (Ret {| description := Some ["patient_id"; "age"];
              rows := [[VInt 1; VInt 34]; [VInt 2; VInt 61]; [VInt 3; VInt 47]] |}, w)
|}.

(** A database whose catalog cannot be read. *)
Definition broken_db : Connection unit := {|
  catalog := fun w => (Raise (SqliteError "database disk image is malformed"), w);
  run := run db
|}.

End Demo.

(** ** The vocabulary of the properties *)

(** Text with nothing left to clean: no whitespace at either end, no
    backtick, no occurrence of the three letters sql. *)
Definition already_clean (s : string) : bool :=
  negb (starts_with_space s) && negb (ends_with_space s)
  && negb (contains backtick s) && negb (contains "sql" s).

(** A history made of whole turns: a user entry, then a model entry. *)
Inductive whole_turns : list message -> Prop :=
| whole_turns_nil : whole_turns []
| whole_turns_cons (q r : string) (rest : list message) :
    whole_turns rest ->
    whole_turns (user_entry q :: model_entry r :: rest).

(** The roles read user, model, user, model, ... and end on model. *)
Fixpoint alternates (chat_history : list message) : bool :=
  match chat_history with
  | [] => true
  | u :: m :: rest =>
      String.eqb (role u) "user" && String.eqb (role m) "model" && alternates rest
  | [_] => false
  end.

(** The histories the loop can hold when it reads a line: the empty one it
    starts from, and what a completed iteration leaves. *)
Inductive reachable {W : Type} {console : Console W}
    (model : Model W) (db : Connection W) : list message -> Prop :=
| reachable_start : reachable model db []
| reachable_turn q h st h' st' :
    reachable model db h ->
    loop_body model db q h st = (Ret (Some h'), st') ->
    reachable model db h'.

(** The pieces occur in the text one after the other, in this order and
    without overlap. *)
Fixpoint in_order (pieces : list string) (text : string) : Prop :=
  match pieces with
  | [] => True
  | piece :: later =>
      exists before after, text = before ++ piece ++ after /\ in_order later after
  end.

(** How one entry of the history reads in a prompt. *)
Definition rendered (msg : message) : string :=
  role msg ++ ": " ++ hd EmptyString (parts msg).

(** * Properties *)

(** ** Strings *)

Section StringFacts.

Lemma append_empty_r (s : string) : s ++ "" = s.
Proof. induction s as [|c r IH]; simpl; [reflexivity | now rewrite IH]. Qed.

Lemma append_assoc (a b c : string) : (a ++ b) ++ c = a ++ b ++ c.
Proof. induction a as [|x a IH]; simpl; [reflexivity | now rewrite IH]. Qed.

Lemma startswith_append (p s : string) : startswith p (p ++ s) = true.
Proof.
  induction p as [|c p IH]; simpl; [reflexivity|].
  now rewrite Ascii.eqb_refl, IH.
Qed.

Lemma contains_startswith (p s : string) :
  startswith p s = true -> contains p s = true.
Proof. intros H. destruct s; simpl in *; now rewrite H. Qed.

Lemma contains_append_r (p a s : string) :
  contains p s = true -> contains p (a ++ s) = true.
Proof.
  intros H. induction a as [|c a IH]; simpl; [exact H|].
  rewrite IH. apply orb_true_r.
Qed.

Lemma contains_middle (p a b : string) : contains p (a ++ p ++ b) = true.
Proof.
  apply contains_append_r, contains_startswith, startswith_append.
Qed.

Lemma contains_cons (p : string) (c : ascii) (r : string) :
  contains p (String c r) = false ->
  startswith p (String c r) = false /\ contains p r = false.
Proof. simpl. intros H. now apply orb_false_elim in H. Qed.

Lemma replace_from_absent (old new s : string) :
  contains old s = false -> replace_from old new 0 s = s.
Proof.
  induction s as [|c r IH]; [reflexivity|].
  intros H. apply contains_cons in H as [Hhere Hrest].
  cbn [replace_from]. rewrite Hhere. now rewrite IH.
Qed.

Lemma contains_char (c : ascii) (s : string) :
  contains (String c EmptyString) s = has_char c s.
Proof.
  induction s as [|a r IH]; [reflexivity|].
  cbn [contains startswith has_char]. rewrite IH.
  destruct r; now rewrite andb_true_r.
Qed.

(** Deleting occurrences brings no character in. *)
Lemma has_char_replace_from (c : ascii) (old : string) (s : string) :
  has_char c s = false ->
  forall skip, has_char c (replace_from old "" skip s) = false.
Proof.
  induction s as [|a r IH]; intros H skip; [reflexivity|].
  cbn [has_char] in H. apply orb_false_elim in H as [Ha Hr].
  cbn [replace_from]. destruct skip as [|k]; [|now apply IH].
  destruct (startswith old (String a r)).
  - cbn [append]. now apply IH.
  - cbn [has_char]. rewrite Ha. now apply IH.
Qed.

Lemma has_char_removed (c : ascii) (s : string) :
  has_char c (replace (String c EmptyString) "" s) = false.
Proof.
  unfold replace. induction s as [|a r IH]; [reflexivity|].
  cbn [replace_from startswith String.length Nat.sub append].
  destruct (Ascii.eqb c a) eqn:E; cbn [andb].
  - exact IH.
  - cbn [has_char]. now rewrite E, IH.
Qed.

Lemma lstrip_fixed (s : string) : starts_with_space s = false -> lstrip s = s.
Proof. destruct s as [|c r]; simpl; [reflexivity|]. now intros ->. Qed.

Lemma rstrip_fixed (s : string) : ends_with_space s = false -> rstrip s = s.
Proof.
  induction s as [|c r IH]; [reflexivity|].
  intros H. cbn [rstrip]. destruct r as [|d r'].
  - simpl in *. now rewrite H.
  - rewrite IH by exact H. cbn [is_empty]. now rewrite andb_false_r.
Qed.

Lemma strip_fixed (s : string) :
  starts_with_space s = false -> ends_with_space s = false -> strip s = s.
Proof.
  intros Hl Hr. unfold strip. rewrite lstrip_fixed by exact Hl.
  now apply rstrip_fixed.
Qed.

(** Deleting occurrences makes a text no longer, and shorter when there is
    an occurrence to delete. *)
Lemma length_replace_from (old s : string) :
  forall skip, String.length (replace_from old "" skip s) <= String.length s.
Proof.
  induction s as [|c r IH]; intros skip; [reflexivity|].
  cbn [replace_from String.length]. destruct skip as [|k].
  - destruct (startswith old (String c r)).
    + cbn [append]. specialize (IH (String.length old - 1)). lia.
    + cbn [String.length]. specialize (IH 0). lia.
  - specialize (IH k). lia.
Qed.

Lemma length_replace_present (old s : string) :
  old <> EmptyString ->
  contains old s = true ->
  String.length (replace old "" s) < String.length s.
Proof.
  intros Hold. unfold replace. induction s as [|c r IH]; intros H.
  - destruct old; [contradiction | discriminate].
  - cbn [replace_from String.length].
    destruct (startswith old (String c r)) eqn:Hhere.
    + cbn [append].
      pose proof (length_replace_from old r (String.length old - 1)). lia.
    + cbn [contains] in H. rewrite Hhere in H. cbn [orb] in H.
      cbn [String.length]. apply IH in H. lia.
Qed.

Lemma length_lstrip (s : string) :
  String.length (lstrip s) <= String.length s
  /\ (starts_with_space s = true -> String.length (lstrip s) < String.length s).
Proof.
  induction s as [|c r [IHle _]]; [split; [reflexivity | discriminate]|].
  cbn [lstrip starts_with_space String.length].
  destruct (isspace c); cbn [String.length]; split; try discriminate; lia.
Qed.

Lemma length_rstrip (s : string) :
  String.length (rstrip s) <= String.length s
  /\ (ends_with_space s = true -> String.length (rstrip s) < String.length s).
Proof.
  induction s as [|c r [IHle IHlt]]; [split; [reflexivity | discriminate]|].
  cbn [rstrip String.length].
  destruct (isspace c && is_empty (rstrip r)) eqn:Hdrop.
  - cbn [String.length]. split; lia.
  - cbn [String.length]. split; [lia|].
    destruct r as [|d r'].
    + cbn in Hdrop |- *. intros Hc. rewrite Hc in Hdrop. discriminate.
    + intros Hend. apply IHlt in Hend. lia.
Qed.

Lemma length_strip (s : string) :
  String.length (strip s) <= String.length s
  /\ (starts_with_space s || ends_with_space s = true ->
      String.length (strip s) < String.length s).
Proof.
  unfold strip.
  destruct (length_lstrip s) as [Hle Hlt].
  destruct (length_rstrip (lstrip s)) as [Hle' Hlt'].
  split; [lia|].
  destruct (starts_with_space s) eqn:Hstart.
  - intros _. specialize (Hlt eq_refl). lia.
  - cbn [orb]. intros Hend.
    rewrite (lstrip_fixed s Hstart) in *. specialize (Hlt' Hend). lia.
Qed.

End StringFacts.

(** ** C6: the cleanup and its fixed points *)

Lemma cleanup_no_backtick (s : string) : contains backtick (cleanup s) = false.
Proof.
  unfold cleanup, backtick. rewrite contains_char.
  apply has_char_replace_from, has_char_removed.
Qed.

Lemma cleanup_already_clean (s : string) :
  already_clean s = true -> cleanup s = s.
Proof.
  unfold already_clean. intros H.
  repeat (apply andb_prop in H as [H ?]).
  rewrite negb_true_iff in *.
  unfold cleanup, replace.
  rewrite strip_fixed by assumption.
  rewrite (replace_from_absent backtick "" s) by assumption.
  now apply replace_from_absent.
Qed.

(** The texts the cleanup leaves as they are are the clean ones. *)
Lemma cleanup_fixed_is_clean (s : string) :
  cleanup s = s -> already_clean s = true.
Proof.
  intros Hfix.
  assert (Hlen : String.length (cleanup s) = String.length s) by now rewrite Hfix.
  unfold cleanup in Hlen.
  pose proof (length_replace_from "sql" (replace backtick "" (strip s)) 0) as Hsql.
  pose proof (length_replace_from backtick (strip s) 0) as Htick.
  fold (replace "sql" "" (replace backtick "" (strip s))) in Hsql.
  fold (replace backtick "" (strip s)) in Htick.
  destruct (length_strip s) as [Hstrip Hedge].
  destruct (starts_with_space s || ends_with_space s) eqn:Hspace;
    [specialize (Hedge eq_refl); lia|].
  apply orb_false_elim in Hspace as [Hstart Hend].
  rewrite (strip_fixed s Hstart Hend) in *.
  destruct (contains backtick s) eqn:Hbt.
  { apply length_replace_present in Hbt; [lia | discriminate]. }
  unfold replace in Hlen, Hsql.
  rewrite (replace_from_absent backtick "" s Hbt) in *.
  destruct (contains "sql" s) eqn:Hs.
  { apply length_replace_present in Hs; [unfold replace in Hs; lia | discriminate]. }
  unfold already_clean. now rewrite Hstart, Hend, Hbt, Hs.
Qed.

(** C6, as the code has it: a second cleanup changes nothing exactly when
    the first one left no whitespace at either end and no occurrence of
    sql. *)
Theorem cleanup_idempotent_on_settled_text (s : string) :
  cleanup (cleanup s) = cleanup s
  <-> starts_with_space (cleanup s) = false
      /\ ends_with_space (cleanup s) = false
      /\ contains "sql" (cleanup s) = false.
Proof.
  split.
  - intros Hfix. apply cleanup_fixed_is_clean in Hfix.
    unfold already_clean in Hfix.
    repeat (apply andb_prop in Hfix as [Hfix ?]).
    rewrite negb_true_iff in *. now repeat split.
  - intros (Hl & Hr & Hsql). apply cleanup_already_clean.
    unfold already_clean.
    now rewrite Hl, Hr, Hsql, cleanup_no_backtick.
Qed.

Lemma cleanup_idempotent_on_settled_text_witness :
  cleanup (cleanup "`SELECT age FROM Demography`")
  = cleanup "`SELECT age FROM Demography`".
Proof.
  apply (proj2 (cleanup_idempotent_on_settled_text "`SELECT age FROM Demography`")).
  repeat split.
Defined.

(** C6, as the claim has it, fails on the usual fenced answer: the first
    cleanup leaves the newlines that stood inside the fence, and the second
    one strips them. *)
Lemma cleanup_not_idempotent :
  cleanup fenced_answer = nl ++ "SELECT 1" ++ nl
  /\ cleanup (cleanup fenced_answer) = "SELECT 1"
  /\ cleanup (cleanup fenced_answer) <> cleanup fenced_answer.
Proof. repeat split. discriminate. Qed.

(** ** The log of a turn *)

Section Logs.
Context {W : Type}.
Implicit Types (st : state W) (model : Model W) (db : Connection W).

Lemma llm_calls_app (l1 l2 : list event) :
  llm_calls (l1 ++ l2) = llm_calls l1 + llm_calls l2.
Proof. unfold llm_calls. now rewrite filter_app, length_app. Qed.

Lemma executor_calls_app (l1 l2 : list event) :
  executor_calls (l1 ++ l2) = executor_calls l1 + executor_calls l2.
Proof. unfold executor_calls. now rewrite filter_app, length_app. Qed.

Lemma fetch_schema_statements_log db st (r : res (list string)) st' :
  fetch_schema_statements db st = (r, st') ->
  log st' = (log st ++ [EvCatalog])%list.
Proof.
  unfold fetch_schema_statements. destruct (catalog db (world st)) as [r0 w].
  intros [= _ <-]. reflexivity.
Qed.

Lemma generate_content_log model prompt st (r : res string) st' :
  generate_content model prompt st = (r, st') ->
  log st' = (log st ++ [EvGenerate prompt])%list.
Proof.
  unfold generate_content. destruct (generate model prompt (world st)) as [o w].
  destruct o; intros [= _ <-]; reflexivity.
Qed.

(** The LLM client raises no database error. *)
Lemma generate_content_no_sqlite model prompt st msg st' :
  generate_content model prompt st <> (Raise (SqliteError msg), st').
Proof.
  unfold generate_content. destruct (generate model prompt (world st)) as [o w].
  destruct o; discriminate.
Qed.

Lemma cursor_execute_log db sql st (r : res cursor_result) st' :
  cursor_execute db sql st = (r, st') ->
  log st' = (log st ++ [EvExecute sql])%list.
Proof.
  unfold cursor_execute. destruct (run db sql (world st)) as [r0 w].
  intros [= _ <-]. reflexivity.
Qed.

Lemma history_str_no_sqlite (chat_history : list message) msg :
  history_str chat_history <> Raise (SqliteError msg).
Proof.
  unfold history_str.
  assert (H : render_messages chat_history <> Raise (SqliteError msg)).
  { induction chat_history as [|m rest IH]; [discriminate|].
    simpl. unfold render_message. destruct (parts m); [discriminate|].
    destruct (render_messages rest) as [lines|e]; [discriminate|].
    intros [= ->]. now apply IH. }
  destruct (render_messages chat_history); [discriminate|].
  intros [= ->]. now apply H.
Qed.

(** What a synthesis that returns has done: one LLM call, on the prompt
    built from the rendered history, and the cleanup of its answer. *)
Lemma get_sql_returns model user_question schema chat_history st sql st' :
  _get_sql_from_llm model user_question schema chat_history st = (Ret sql, st') ->
  exists history text,
    history_str chat_history = Ret history
    /\ generate_content model (sql_prompt schema history user_question) st
       = (Ret text, st')
    /\ sql = cleanup text.
Proof.
  unfold _get_sql_from_llm, bind, lift, ret.
  destruct (history_str chat_history) as [history|e]; [|discriminate].
  destruct (generate_content model _ st) as [[text|e] st1] eqn:G; [|discriminate].
  intros [= <- <-]. now exists history, text.
Qed.

Lemma get_sql_no_sqlite model user_question schema chat_history st msg st' :
  _get_sql_from_llm model user_question schema chat_history st
  <> (Raise (SqliteError msg), st').
Proof.
  unfold _get_sql_from_llm, bind, lift, ret.
  destruct (history_str chat_history) as [history|e] eqn:Hh.
  - destruct (generate_content model _ st) as [[text|e] st1] eqn:G; [discriminate|].
    intros [= -> ->]. now apply generate_content_no_sqlite in G.
  - intros [= -> _]. now apply history_str_no_sqlite in Hh.
Qed.

Lemma web_get_sql_returns model user_question schema st sql st' :
  Web.get_sql_from_llm model user_question schema st = (Ret sql, st') ->
  exists text,
    generate_content model (Web.sql_prompt schema user_question) st = (Ret text, st')
    /\ sql = cleanup text.
Proof.
  unfold Web.get_sql_from_llm, bind, ret.
  destruct (generate_content model _ st) as [[text|e] st1] eqn:G; [|discriminate].
  intros [= <- <-]. now exists text.
Qed.

(** With [sql_query] bound, every except clause returns a reply and leaves
    the state as it found it. *)
Lemma except_clauses_bound (sql : string) (e : exn) st :
  exists reply, except_clauses (Some sql) e st = (Ret reply, st).
Proof.
  destruct e as [msg|msg|msg]; simpl.
  - destruct (contains "v1beta" msg); eexists; reflexivity.
  - eexists; reflexivity.
  - eexists; reflexivity.
Qed.

End Logs.

(** ** The turn: sentinel, empty result, failed execution *)

Section Turns.
Context {W : Type} {console : Console W}.
Implicit Types (st : state W) (model : Model W) (db : Connection W).

(** The interactive turn up to the point where [sql_query] is bound and is
    no sentinel: what is left is the execution and what follows it. *)
Lemma query_database_after_synthesis model db q h st stmts st1 sql st2 :
  fetch_schema_statements db st = (Ret stmts, st1) ->
  _get_sql_from_llm model q (join nl stmts) h st1 = (Ret sql, st2) ->
  query_database model q db h st
  = try_except
      (try_except (answer_query model q db h sql) (except_clauses (Some sql)))
      (except_clauses None) st2.
Proof.
  intros Hfetch Hsynth.
  unfold query_database, bind at 1. rewrite Hfetch.
  unfold try_except at 1, bind at 1. rewrite Hsynth.
  unfold try_except at 2. reflexivity.
Qed.

(** The log after a fetch and a synthesis: no execution so far, and one LLM
    call. *)
Lemma log_after_synthesis model db q h st stmts st1 sql st2 :
  fetch_schema_statements db st = (Ret stmts, st1) ->
  _get_sql_from_llm model q (join nl stmts) h st1 = (Ret sql, st2) ->
  executor_calls (log st2) = executor_calls (log st)
  /\ llm_calls (log st2) = llm_calls (log st) + 1.
Proof.
  intros Hfetch Hsynth.
  apply get_sql_returns in Hsynth as (history & text & _ & Hgen & _).
  apply generate_content_log in Hgen. apply fetch_schema_statements_log in Hfetch.
  rewrite Hgen, Hfetch, !executor_calls_app, !llm_calls_app.
  unfold executor_calls, llm_calls. simpl. lia.
Qed.

Lemma web_log_after_synthesis model db q st stmts st1 sql st2 :
  fetch_schema_statements db st = (Ret stmts, st1) ->
  Web.get_sql_from_llm model q (join nl stmts) st1 = (Ret sql, st2) ->
  executor_calls (log st2) = executor_calls (log st)
  /\ llm_calls (log st2) = llm_calls (log st) + 1.
Proof.
  intros Hfetch Hsynth.
  apply web_get_sql_returns in Hsynth as (text & Hgen & _).
  apply generate_content_log in Hgen. apply fetch_schema_statements_log in Hfetch.
  rewrite Hgen, Hfetch, !executor_calls_app, !llm_calls_app.
  unfold executor_calls, llm_calls. simpl. lia.
Qed.

(** The try block of the web turn once the SQL candidate is there. *)
Lemma web_chat_turn_after_synthesis model db q st stmts st1 sql st2 :
  fetch_schema_statements db st = (Ret stmts, st1) ->
  Web.get_sql_from_llm model q (join nl stmts) st1 = (Ret sql, st2) ->
  Web.chat_turn model db q st
  = try_except
      (if contains "NOT_A_QUERY" sql then
         generate_content model (Web.small_talk_prompt q)
       else
         show_sql sql ;;;
         cur <- cursor_execute db sql ;;
         Web.format_response_naturally model q (rows cur)
           match description cur with Some names => names | None => [] end)
      (fun e => ret ("An error occurred: " ++ str_exn e)) st2.
Proof.
  intros Hfetch Hsynth.
  unfold Web.chat_turn, try_except, bind at 1. rewrite Hfetch.
  unfold bind at 1. rewrite Hsynth. reflexivity.
Qed.

(** A diagnostic print that returns has shown the SQL. *)
Lemma print_generated_sql_log sql st (u : unit) st' :
  print_generated_sql sql st = (Ret u, st') ->
  log st' = (log st ++ [EvDiagnostic sql])%list.
Proof.
  unfold print_generated_sql.
  destruct (print_line sql (world st)) as [[|msg] w]; [|discriminate].
  intros [= _ <-]. reflexivity.
Qed.

(** C1.  When the cleaned answer of the synthesis holds the sentinel, the
    turn runs nothing on the database.  The interactive variant replies with
    its fixed sentence; the web variant makes one more LLM call, on the
    small-talk prompt, and replies with the text that call returns (or, when
    that call raises, with the error text of the handler). *)
Theorem sentinel_never_reaches_executor :
  (forall model db q h st stmts st1 sql st2,
      fetch_schema_statements db st = (Ret stmts, st1) ->
      _get_sql_from_llm model q (join nl stmts) h st1 = (Ret sql, st2) ->
      contains "NOT_A_QUERY" sql = true ->
      query_database model q db h st = (Ret not_a_query_reply, st2)
      /\ executor_calls (log st2) = executor_calls (log st))
  /\
  (forall model db q st stmts st1 sql st2 (outcome : res string) st3,
      fetch_schema_statements db st = (Ret stmts, st1) ->
      Web.get_sql_from_llm model q (join nl stmts) st1 = (Ret sql, st2) ->
      contains "NOT_A_QUERY" sql = true ->
      generate_content model (Web.small_talk_prompt q) st2 = (outcome, st3) ->
      Web.chat_turn model db q st
      = (Ret match outcome with
             | Ret text => text
             | Raise e => "An error occurred: " ++ str_exn e
             end, st3)
      /\ log st3 = (log st2 ++ [EvGenerate (Web.small_talk_prompt q)])%list
      /\ executor_calls (log st3) = executor_calls (log st)).
Proof.
  split.
  - intros model db q h st stmts st1 sql st2 Hfetch Hsynth Hsentinel. split.
    + erewrite query_database_after_synthesis by eassumption.
      unfold try_except, answer_query. rewrite Hsentinel. reflexivity.
    + edestruct log_after_synthesis as [Hexec _]; [exact Hfetch | exact Hsynth | exact Hexec].
  - intros model db q st stmts st1 sql st2 outcome st3 Hfetch Hsynth Hsentinel Htalk.
    pose proof Htalk as Hlog. apply generate_content_log in Hlog.
    edestruct web_log_after_synthesis as [Hexec _]; [exact Hfetch | exact Hsynth |].
    repeat split.
    + erewrite web_chat_turn_after_synthesis by eassumption.
      unfold try_except. rewrite Hsentinel, Htalk. now destruct outcome.
    + exact Hlog.
    + rewrite Hlog, executor_calls_app, Hexec.
      unfold executor_calls. simpl. lia.
Qed.

(** C7.  When the execution gives back no row, the reply of the turn is the
    fixed sentence, and the synthesis stays the only LLM call of the turn,
    in both variants; the composer of the web variant, which is where that
    variant tests for the empty result, calls nothing.  In the interactive
    variant the execution comes after the diagnostic print, and so after
    its success. *)
Theorem empty_result_skips_composer :
  (forall model db q h st stmts st1 sql st2 shown cur st3,
      fetch_schema_statements db st = (Ret stmts, st1) ->
      _get_sql_from_llm model q (join nl stmts) h st1 = (Ret sql, st2) ->
      contains "NOT_A_QUERY" sql = false ->
      print_generated_sql sql st2 = (Ret tt, shown) ->
      cursor_execute db sql shown = (Ret cur, st3) ->
      rows cur = [] ->
      query_database model q db h st = (Ret no_results_reply, st3)
      /\ llm_calls (log st3) = llm_calls (log st) + 1)
  /\
  (forall model db q st stmts st1 sql st2 cur st3,
      fetch_schema_statements db st = (Ret stmts, st1) ->
      Web.get_sql_from_llm model q (join nl stmts) st1 = (Ret sql, st2) ->
      contains "NOT_A_QUERY" sql = false ->
      cursor_execute db sql (record (EvDiagnostic sql) (world st2) st2) = (Ret cur, st3) ->
      rows cur = [] ->
      Web.chat_turn model db q st = (Ret no_results_reply, st3)
      /\ llm_calls (log st3) = llm_calls (log st) + 1)
  /\
  (forall model q column_names st,
      Web.format_response_naturally model q [] column_names st
      = (Ret no_results_reply, st)).
Proof.
  split; [|split].
  - intros model db q h st stmts st1 sql st2 shown cur st3
      Hfetch Hsynth Hsql Hprint Hrun Hrows.
    split.
    + erewrite query_database_after_synthesis by eassumption.
      unfold try_except, answer_query. rewrite Hsql.
      unfold bind at 1. rewrite Hprint. unfold bind at 1. rewrite Hrun, Hrows.
      reflexivity.
    + edestruct log_after_synthesis as [_ Hllm]; [exact Hfetch | exact Hsynth |].
      apply cursor_execute_log in Hrun. apply print_generated_sql_log in Hprint.
      rewrite Hrun, Hprint.
      rewrite !llm_calls_app, Hllm. unfold llm_calls. simpl. lia.
  - intros model db q st stmts st1 sql st2 cur st3 Hfetch Hsynth Hsql Hrun Hrows.
    split.
    + erewrite web_chat_turn_after_synthesis by eassumption.
      unfold try_except. rewrite Hsql.
      unfold bind at 1, show_sql. unfold bind at 1. rewrite Hrun, Hrows.
      reflexivity.
    + edestruct web_log_after_synthesis as [_ Hllm]; [exact Hfetch | exact Hsynth |].
      apply cursor_execute_log in Hrun. rewrite Hrun. cbn [record log].
      rewrite !llm_calls_app, Hllm. unfold llm_calls. simpl. lia.
  - reflexivity.
Qed.

(** C3, as the code has it.  When the execution of the candidate raises a
    database error, the reply of the interactive variant holds the text of
    the error and the SQL that was run; the execution comes after the
    diagnostic print, and so after its success.  The reply of the web
    variant is the text of the error, of whatever class, behind a fixed
    prefix; the SQL it has shown before running it. *)
Theorem execution_failure_reply :
  (forall model db q h st stmts st1 sql st2 shown msg st3,
      fetch_schema_statements db st = (Ret stmts, st1) ->
      _get_sql_from_llm model q (join nl stmts) h st1 = (Ret sql, st2) ->
      contains "NOT_A_QUERY" sql = false ->
      print_generated_sql sql st2 = (Ret tt, shown) ->
      cursor_execute db sql shown = (Raise (SqliteError msg), st3) ->
      exists reply,
        query_database model q db h st = (Ret reply, st3)
        /\ contains msg reply = true
        /\ contains sql reply = true)
  /\
  (forall model db q st stmts st1 sql st2 e st3,
      fetch_schema_statements db st = (Ret stmts, st1) ->
      Web.get_sql_from_llm model q (join nl stmts) st1 = (Ret sql, st2) ->
      contains "NOT_A_QUERY" sql = false ->
      cursor_execute db sql (record (EvDiagnostic sql) (world st2) st2)
      = (Raise e, st3) ->
      Web.chat_turn model db q st = (Ret ("An error occurred: " ++ str_exn e), st3)
      /\ contains (str_exn e) ("An error occurred: " ++ str_exn e) = true
      /\ In (EvDiagnostic sql) (log st3)).
Proof.
  split.
  - intros model db q h st stmts st1 sql st2 shown msg st3
      Hfetch Hsynth Hsql Hprint Hrun.
    exists ("I couldn't run the query. The database returned an error: "
            ++ msg ++ nl ++ "Faulty SQL was: " ++ sql).
    repeat split.
    + erewrite query_database_after_synthesis by eassumption.
      unfold try_except, answer_query. rewrite Hsql.
      unfold bind at 1. rewrite Hprint. unfold bind at 1. rewrite Hrun.
      reflexivity.
    + apply contains_middle.
    + rewrite <- (append_empty_r sql) at 2.
      rewrite <- !append_assoc. rewrite append_assoc. apply contains_middle.
  - intros model db q st stmts st1 sql st2 e st3 Hfetch Hsynth Hsql Hrun.
    repeat split.
    + erewrite web_chat_turn_after_synthesis by eassumption.
      unfold try_except. rewrite Hsql.
      unfold bind at 1, show_sql. unfold bind at 1. rewrite Hrun.
      reflexivity.
    + rewrite <- (append_empty_r (str_exn e)) at 2. apply contains_middle.
    + apply cursor_execute_log in Hrun. rewrite Hrun. cbn [record log].
      rewrite !in_app_iff. left. right. now left.
Qed.

(** ** C4: which errors a turn resolves into a reply *)

(** X15.  Once the schema is fetched, the interactive turn always ends in a
    reply, whatever the LLM and the database do. *)
Lemma query_database_replies_after_fetch model db q h st stmts st1 :
  fetch_schema_statements db st = (Ret stmts, st1) ->
  exists reply st', query_database model q db h st = (Ret reply, st').
Proof.
  intros Hfetch.
  unfold query_database, bind at 1. rewrite Hfetch.
  unfold try_except at 1, bind at 1.
  destruct (_get_sql_from_llm model q (join nl stmts) h st1)
    as [[sql|e] st2] eqn:Hsynth.
  - unfold try_except.
    destruct (answer_query model q db h sql st2) as [[reply|e] st3].
    + now exists reply, st3.
    + destruct (except_clauses_bound sql e st3) as [reply ->].
      now exists reply, st3.
  - destruct e as [msg|msg|msg]; simpl.
    + destruct (contains "v1beta" msg); eexists; eexists; reflexivity.
    + now apply get_sql_no_sqlite in Hsynth.
    + eexists; eexists; reflexivity.
Qed.

(** An error of the schema fetch is raised before the try block opens: it
    leaves [query_database] as it is, and the loop with it. *)
Lemma schema_failure_escapes model db q h st e st1 :
  fetch_schema_statements db st = (Raise e, st1) ->
  query_database model q db h st = (Raise e, st1)
  /\ (is_quit q = false ->
      forall rest, interactive_loop model db (q :: rest) h st = (Raise e, st1)).
Proof.
  intros Hfetch.
  assert (Hturn : query_database model q db h st = (Raise e, st1)).
  { unfold query_database, bind at 1. now rewrite Hfetch. }
  split; [exact Hturn|].
  intros Hquit rest. cbn [interactive_loop].
  unfold bind at 1, loop_body. rewrite Hquit.
  unfold bind at 1. now rewrite Hturn.
Qed.

(** X16.  The web turn has its schema fetch inside the try block: it
    always ends in a reply, and at whichever step an error is raised (the
    schema fetch, the synthesis, the small talk, the execution, the
    composer), the reply is the text of that error behind the words of the
    one except clause. *)
Theorem web_chat_turn_replies model db q st :
  exists reply st',
    Web.chat_turn model db q st = (Ret reply, st')
    /\ (forall e st1,
          fetch_schema_statements db st = (Raise e, st1) ->
          reply = "An error occurred: " ++ str_exn e)
    /\ (forall stmts st1,
          fetch_schema_statements db st = (Ret stmts, st1) ->
          (forall e st2,
              Web.get_sql_from_llm model q (join nl stmts) st1 = (Raise e, st2) ->
              reply = "An error occurred: " ++ str_exn e)
          /\ (forall sql st2,
                Web.get_sql_from_llm model q (join nl stmts) st1 = (Ret sql, st2) ->
                if contains "NOT_A_QUERY" sql then
                  forall e st3,
                    generate_content model (Web.small_talk_prompt q) st2
                    = (Raise e, st3) ->
                    reply = "An error occurred: " ++ str_exn e
                else
                  (forall e st3,
                      cursor_execute db sql (snd (show_sql sql st2)) = (Raise e, st3) ->
                      reply = "An error occurred: " ++ str_exn e)
                  /\ (forall cur st3 e st4,
                        cursor_execute db sql (snd (show_sql sql st2)) = (Ret cur, st3) ->
                        Web.format_response_naturally model q (rows cur)
                          match description cur with
                          | Some names => names
                          | None => []
                          end st3
                        = (Raise e, st4) ->
                        reply = "An error occurred: " ++ str_exn e))).
Proof.
  unfold Web.chat_turn, try_except.
  match goal with |- context [match ?body st with _ => _ end] =>
    destruct (body st) as [r st'] eqn:Hbody
  end.
  exists match r with
         | Ret reply => reply
         | Raise e => "An error occurred: " ++ str_exn e
         end, st'.
  split; [now destruct r|].
  unfold bind at 1 in Hbody. split.
  - intros e st1 Hfetch. rewrite Hfetch in Hbody.
    injection Hbody as <- _. reflexivity.
  - intros stmts st1 Hfetch. rewrite Hfetch in Hbody.
    unfold bind at 1 in Hbody. split.
    + intros e st2 Hsynth. rewrite Hsynth in Hbody.
      injection Hbody as <- _. reflexivity.
    + intros sql st2 Hsynth. rewrite Hsynth in Hbody.
      destruct (contains "NOT_A_QUERY" sql).
      * intros e st3 Htalk. rewrite Htalk in Hbody.
        injection Hbody as <- _. reflexivity.
      * unfold bind at 1, show_sql in Hbody. unfold bind at 1 in Hbody.
        unfold show_sql. cbn [snd]. split.
        -- intros e st3 Hrun. rewrite Hrun in Hbody.
           injection Hbody as <- _. reflexivity.
        -- intros cur st3 e st4 Hrun Hcompose. rewrite Hrun, Hcompose in Hbody.
           injection Hbody as <- _. reflexivity.
Qed.

End Turns.

(** C3, as the claim has it, fails in the web variant: the reply to a
    failed execution holds the text of the error and not the SQL. *)
Lemma web_failure_reply_omits_sql :
  let outcome := Web.chat_turn Demo.model Demo.db "How many visits?" Demo.start in
  In (EvExecute "SELECT * FROM Nonexistent") (log (snd outcome))
  /\ fst outcome = Ret "An error occurred: no such table: Nonexistent"
  /\ contains "SELECT * FROM Nonexistent"
       "An error occurred: no such table: Nonexistent" = false.
Proof. vm_compute. repeat split. do 3 right. now left. Qed.

(** C4, on a database whose catalog cannot be read: the error of the schema
    fetch leaves the turn unresolved, and ends the session before the next
    line is read. *)
Theorem schema_failure_ends_session :
  query_database Demo.model "How many patients?" Demo.broken_db [] Demo.start
  = (Raise (SqliteError "database disk image is malformed"),
     {| world := tt; log := [EvCatalog] |})
  /\ interactive_loop Demo.model Demo.broken_db
       ["How many patients?"; "How many visits?"; "quit"] [] Demo.start
     = (Raise (SqliteError "database disk image is malformed"),
        {| world := tt; log := [EvCatalog] |}).
Proof. split; reflexivity. Qed.

(** ** C2: the single-cell answer *)

Section Composer.
Context {W : Type}.
Implicit Types (st : state W) (model : Model W) (db : Connection W).

(** C2, as the code has it.  On a result of one row and one column the
    composer of the interactive variant calls nothing and returns the fixed
    words followed by the text of the cell.  The composer of the web variant
    has no such path: on every result with a row it makes one LLM call. *)
Theorem single_cell_fast_path :
  (forall model q results column_names h st,
      length results = 1 ->
      length column_names = 1 ->
      Forall (fun row => length row = length column_names) results ->
      exists v,
        results = [[v]]
        /\ _format_response_naturally model q results column_names h st
           = (Ret ("The answer is: " ++ str_value v), st))
  /\
  (forall model q results column_names st,
      results <> [] ->
      log (snd (Web.format_response_naturally model q results column_names st))
      = (log st
         ++ [EvGenerate (Web.answer_prompt q (Web.data_block results column_names))])%list).
Proof.
  split.
  - intros model q results column_names h st Hrows Hcols Hshape.
    destruct results as [|row [|]]; try discriminate.
    apply Forall_inv in Hshape. rewrite Hcols in Hshape.
    destruct row as [|v [|]]; try discriminate.
    exists v. split; [reflexivity|].
    unfold _format_response_naturally. rewrite Hcols. reflexivity.
  - intros model q results column_names st Hrows.
    destruct results as [|row rest]; [contradiction|].
    unfold Web.format_response_naturally, is_nil, bind, ret.
    destruct (generate_content model _ st) as [[text|e] st1] eqn:G;
      apply generate_content_log in G; exact G.
Qed.

End Composer.

Lemma single_cell_fast_path_witness :
  exists v,
    [[VInt 3]] = [[v]]
    /\ _format_response_naturally Demo.model "How many patients?"
         [[VInt 3]] ["COUNT(*)"] [] Demo.start
       = (Ret ("The answer is: " ++ str_value v), Demo.start).
Proof.
  apply (proj1 (@single_cell_fast_path unit) Demo.model "How many patients?"
           [[VInt 3]] ["COUNT(*)"] [] Demo.start).
  - reflexivity.
  - reflexivity.
  - repeat constructor.
Defined.

(** C2, as the claim has it, fails in the web variant: for a result of one
    row and one column its composer calls the LLM, and the reply is what the
    LLM wrote. *)
Lemma web_single_cell_calls_llm :
  let outcome :=
    Web.format_response_naturally Demo.model "How many patients?"
      [[VInt 3]] ["COUNT(*)"] Demo.start in
  llm_calls (log (snd outcome)) = 1
  /\ fst outcome = Ret "Here is what I found for you.".
Proof. vm_compute. split; reflexivity. Qed.

(** ** C5, C9, C10: the interactive loop and its history *)

Section History.

Lemma last_n_suffix {A} (n : nat) (l : list A) :
  exists evicted, l = (evicted ++ last_n n l)%list
                  /\ length (last_n n l) = Nat.min (length l) n.
Proof.
  exists (firstn (length l - n) l). unfold last_n. split.
  - symmetry. apply firstn_skipn.
  - rewrite length_skipn. lia.
Qed.

Lemma remember_last_n (h : list message) (q r : string) :
  remember h q r
  = last_n (2 * MAX_HISTORY_TURNS) (h ++ [user_entry q; model_entry r]).
Proof.
  unfold remember. rewrite <- app_assoc. cbn [app].
  replace (MAX_HISTORY_TURNS * 2) with (2 * MAX_HISTORY_TURNS) by lia.
  destruct (Nat.ltb_spec (2 * MAX_HISTORY_TURNS)
              (length (h ++ [user_entry q; model_entry r]))) as [Hlong|Hshort].
  - reflexivity.
  - unfold last_n.
    replace (length (h ++ [user_entry q; model_entry r]) - 2 * MAX_HISTORY_TURNS)
      with 0 by lia.
    reflexivity.
Qed.

Lemma whole_turns_app (a b : list message) :
  whole_turns a -> whole_turns b -> whole_turns (a ++ b).
Proof.
  intros Ha Hb. induction Ha as [|q r rest _ IH]; [exact Hb|].
  cbn [app]. now constructor.
Qed.

Lemma whole_turns_skipn (h : list message) :
  whole_turns h -> forall k, whole_turns (skipn (2 * k) h).
Proof.
  induction 1 as [|q r rest Hrest IH]; intros k.
  - rewrite skipn_nil. constructor.
  - destruct k as [|k]; [now constructor|].
    replace (2 * S k) with (S (S (2 * k))) by lia. cbn [skipn]. apply IH.
Qed.

Lemma whole_turns_even (h : list message) :
  whole_turns h -> exists n, length h = 2 * n.
Proof.
  induction 1 as [|q r rest _ [n IH]]; [now exists 0|].
  exists (S n). cbn [length]. lia.
Qed.

Lemma whole_turns_have_parts (h : list message) :
  whole_turns h -> Forall (fun msg => parts msg <> []) h.
Proof.
  induction 1 as [|q r rest _ IH]; [constructor|].
  repeat constructor; [discriminate | discriminate | exact IH].
Qed.

Lemma whole_turns_alternates (h : list message) :
  whole_turns h -> alternates h = true.
Proof. induction 1 as [|q r rest _ IH]; [reflexivity | exact IH]. Qed.

Lemma whole_turns_remember (h : list message) (q r : string) :
  whole_turns h -> whole_turns (remember h q r).
Proof.
  intros Hh. rewrite remember_last_n. unfold last_n.
  assert (Hall : whole_turns (h ++ [user_entry q; model_entry r])).
  { apply whole_turns_app; [exact Hh | repeat constructor]. }
  destruct (whole_turns_even Hall) as [n Hn]. rewrite Hn.
  replace (2 * n - 2 * MAX_HISTORY_TURNS) with (2 * (n - MAX_HISTORY_TURNS)) by lia.
  now apply whole_turns_skipn.
Qed.

(** The last two entries of the history a turn leaves are its own. *)
Lemma remember_ends_with_turn (h : list message) (q r : string) :
  exists older, remember h q r = (older ++ [user_entry q; model_entry r])%list.
Proof.
  rewrite remember_last_n. unfold last_n.
  assert (Hlen : length (h ++ [user_entry q; model_entry r]) = length h + 2).
  { rewrite length_app. reflexivity. }
  exists (skipn (length h + 2 - 2 * MAX_HISTORY_TURNS) h).
  rewrite Hlen, skipn_app.
  replace (length h + 2 - 2 * MAX_HISTORY_TURNS - length h) with 0
    by (unfold MAX_HISTORY_TURNS; lia).
  reflexivity.
Qed.

End History.

Section Loop.
Context {W : Type} {console : Console W}.
Implicit Types (st : state W) (model : Model W) (db : Connection W).

(** An iteration that goes on has answered a line that is no quit word, and
    has remembered the line and the reply. *)
Lemma loop_body_continues model db q h st h' st' :
  loop_body model db q h st = (Ret (Some h'), st') ->
  is_quit q = false
  /\ exists response,
       query_database model q db h st = (Ret response, st')
       /\ h' = remember h q response.
Proof.
  unfold loop_body. destruct (is_quit q); [discriminate|].
  unfold bind, ret.
  destruct (query_database model q db h st) as [[response|e] st1];
    [|discriminate].
  intros [= <- <-]. split; [reflexivity|]. now exists response.
Qed.

(** C5.  The history a completed turn leaves has at most twice
    [MAX_HISTORY_TURNS] entries: it is the old history with the two entries
    of the turn at its end, less a prefix, which is empty as long as the
    whole fits. *)
Theorem history_window model db q h st h' st' :
  loop_body model db q h st = (Ret (Some h'), st') ->
  length h' <= 2 * MAX_HISTORY_TURNS
  /\ exists response evicted,
       (h ++ [user_entry q; model_entry response])%list = (evicted ++ h')%list
       /\ h' = last_n (2 * MAX_HISTORY_TURNS)
                 (h ++ [user_entry q; model_entry response])
       /\ length h' = Nat.min (length h + 2) (2 * MAX_HISTORY_TURNS).
Proof.
  intros Hturn.
  apply loop_body_continues in Hturn as (_ & response & _ & ->).
  rewrite remember_last_n.
  destruct (last_n_suffix (2 * MAX_HISTORY_TURNS)
              (h ++ [user_entry q; model_entry response]))
    as (evicted & Hsplit & Hlen).
  rewrite length_app in Hlen. cbn [length] in Hlen.
  split; [lia|].
  exists response, evicted. repeat split; [exact Hsplit | exact Hlen].
Qed.

(** C9, as the code has it.  A line that reads quit or exit once lowered
    ends the session: nothing is called, and the history stays as it was.
    The empty line is no such word: it goes to [query_database] as a
    question, and the turn is remembered like any other. *)
Theorem quit_words_end_session :
  (forall model db q rest h st,
      lower q = "quit" \/ lower q = "exit" ->
      loop_body model db q h st = (Ret None, st)
      /\ interactive_loop model db (q :: rest) h st = (Ret h, st))
  /\
  (forall model db h st,
      loop_body model db "" h st
      = (response <- query_database model "" db h ;;
         ret (Some (remember h "" response))) st).
Proof.
  split.
  - intros model db q rest h st Hquit.
    assert (Hbody : loop_body model db q h st = (Ret None, st)).
    { unfold loop_body, is_quit. destruct Hquit as [-> | ->]; reflexivity. }
    split; [exact Hbody|].
    cbn [interactive_loop]. unfold bind at 1. now rewrite Hbody.
  - reflexivity.
Qed.

(** C10.  Every history the loop reaches is made of whole turns: its length
    is even and its roles alternate, user first.  A turn that completes,
    whatever its reply, leaves the old history with one user entry and one
    model entry appended, cut to the window; these two entries are its last
    two. *)
Theorem turns_alternate model db h :
  reachable model db h ->
  (exists n, length h = 2 * n)
  /\ alternates h = true
  /\ forall q st h' st',
       loop_body model db q h st = (Ret (Some h'), st') ->
       exists response older,
         query_database model q db h st = (Ret response, st')
         /\ h' = last_n (2 * MAX_HISTORY_TURNS)
                   (h ++ [user_entry q; model_entry response])
         /\ h' = (older ++ [user_entry q; model_entry response])%list.
Proof.
  intros Hreach.
  assert (Hwhole : whole_turns h).
  { induction Hreach as [|q h st h' st' _ IH Hturn]; [constructor|].
    apply loop_body_continues in Hturn as (_ & response & _ & ->).
    now apply whole_turns_remember. }
  split; [now apply whole_turns_even|].
  split; [now apply whole_turns_alternates|].
  intros q st h' st' Hturn.
  apply loop_body_continues in Hturn as (_ & response & Hreply & ->).
  destruct (remember_ends_with_turn h q response) as [older Holder].
  exists response, older. split; [exact Hreply|].
  split; [apply remember_last_n | exact Holder].
Qed.

(** The history a session ends with is one the loop has reached. *)
Lemma interactive_loop_reachable model db lines :
  forall h st h_end st',
    reachable model db h ->
    interactive_loop model db lines h st = (Ret h_end, st') ->
    reachable model db h_end.
Proof.
  induction lines as [|q rest IH]; intros h st h_end st' Hreach; [discriminate|].
  cbn [interactive_loop]. unfold bind at 1.
  destruct (loop_body model db q h st) as [[[h1|]|e] st1] eqn:Hturn.
  - intros Hrest. eapply IH; [|exact Hrest].
    eapply reachable_turn; eassumption.
  - intros [= <- _]. exact Hreach.
  - discriminate.
Qed.

End Loop.

Lemma history_window_witness :
  let h' := remember Demo.busy_history "How many patients?" "The answer is: 3" in
  length h' <= 2 * MAX_HISTORY_TURNS
  /\ exists response evicted,
       (Demo.busy_history
        ++ [user_entry "How many patients?"; model_entry response])%list
       = (evicted ++ h')%list
       /\ h' = last_n (2 * MAX_HISTORY_TURNS)
                 (Demo.busy_history
                  ++ [user_entry "How many patients?"; model_entry response])
       /\ length h' = Nat.min (length Demo.busy_history + 2) (2 * MAX_HISTORY_TURNS).
Proof.
  apply (@history_window unit _ Demo.model Demo.db "How many patients?"
           Demo.busy_history Demo.start _
           (snd (loop_body Demo.model Demo.db "How many patients?"
                   Demo.busy_history Demo.start))).
  reflexivity.
Defined.

Lemma turns_alternate_witness :
  let h := [user_entry "Good morning"; model_entry not_a_query_reply] in
  (exists n, length h = 2 * n)
  /\ alternates h = true
  /\ forall q st h' st',
       loop_body Demo.model Demo.db q h st = (Ret (Some h'), st') ->
       exists response older,
         query_database Demo.model q Demo.db h st = (Ret response, st')
         /\ h' = last_n (2 * MAX_HISTORY_TURNS)
                   (h ++ [user_entry q; model_entry response])
         /\ h' = (older ++ [user_entry q; model_entry response])%list.
Proof.
  apply (@turns_alternate unit _ Demo.model Demo.db).
  apply (@reachable_turn unit _ Demo.model Demo.db "Good morning" [] Demo.start _
           (snd (loop_body Demo.model Demo.db "Good morning" [] Demo.start))).
  - apply reachable_start.
  - reflexivity.
Defined.

Lemma quit_words_end_session_witness :
  loop_body Demo.model Demo.db "Quit" [] Demo.start = (Ret None, Demo.start)
  /\ interactive_loop Demo.model Demo.db ["Quit"; "How many patients?"] []
       Demo.start
     = (Ret [], Demo.start).
Proof.
  apply (proj1 (@quit_words_end_session unit _) Demo.model Demo.db "Quit"
           ["How many patients?"] [] Demo.start).
  left. reflexivity.
Defined.

(** C9, as the claim has it, fails on the empty line: the loop goes on, asks
    the LLM about the empty question, and remembers the turn. *)
Lemma blank_line_is_processed :
  fst (loop_body Demo.model Demo.db "" [] Demo.start)
  = Ret (Some [user_entry ""; model_entry "The answer is: 3"])
  /\ llm_calls (log (snd (loop_body Demo.model Demo.db "" [] Demo.start))) = 1
  /\ fst (interactive_loop Demo.model Demo.db [""; "quit"] [] Demo.start)
     = Ret [user_entry ""; model_entry "The answer is: 3"].
Proof. vm_compute. repeat split. Qed.

(** ** C8: the layout of the synthesis prompt *)

Section Layout.

Lemma in_order_here (piece : string) (later : list string) (after : string) :
  in_order later after -> in_order (piece :: later) (piece ++ after).
Proof. intros H. now exists EmptyString, after. Qed.

Lemma in_order_later (skipped : string) (pieces : list string) (text : string) :
  in_order pieces text -> in_order pieces (skipped ++ text).
Proof.
  destruct pieces as [|piece later]; [trivial|].
  intros (before & after & -> & H).
  exists (skipped ++ before), after. now rewrite append_assoc.
Qed.

Lemma in_order_contains (pieces : list string) :
  forall text, in_order pieces text ->
               Forall (fun piece => contains piece text = true) pieces.
Proof.
  induction pieces as [|piece later IH]; intros text H; [constructor|].
  destruct H as (before & after & -> & H). constructor.
  - apply contains_middle.
  - apply IH in H. rewrite Forall_forall in *. intros p Hp.
    now apply contains_append_r, contains_append_r, H.
Qed.

Lemma history_str_rendered (chat_history : list message) :
  Forall (fun msg => parts msg <> []) chat_history ->
  history_str chat_history = Ret (join nl (map rendered chat_history)).
Proof.
  intros Hparts. unfold history_str.
  assert (H : render_messages chat_history = Ret (map rendered chat_history)).
  { induction Hparts as [|msg rest Hmsg _ IH]; [reflexivity|].
    cbn [render_messages map]. rewrite IH.
    unfold render_message, rendered. now destruct (parts msg). }
  now rewrite H.
Qed.

End Layout.

Ltac find_in_order :=
  repeat first [ exact I | apply in_order_here | apply in_order_later ].

Section Synthesis.
Context {W : Type}.
Implicit Types (st : state W) (model : Model W).

(** C8, as the code has it.  The synthesis of the interactive variant sends
    one prompt, in one LLM call: the instructions, the schema, the join and
    alias rules, the history with one line per entry (role, colon, space,
    text), and the question, in this order.  The synthesis of the web
    variant takes no history: its one prompt holds the instructions, the
    schema, the alias rule and the question. *)
Theorem synthesis_prompt_layout :
  (forall model q schema h st,
      Forall (fun msg => parts msg <> []) h ->
      let history := join nl (map rendered h) in
      let prompt := sql_prompt schema history q in
      in_order [sql_instructions; schema; sql_rules; history; q] prompt
      /\ log (snd (_get_sql_from_llm model q schema h st))
         = (log st ++ [EvGenerate prompt])%list)
  /\
  (forall model q schema st,
      let prompt := Web.sql_prompt schema q in
      in_order [Web.sql_instructions; schema; Web.sql_rules; q] prompt
      /\ log (snd (Web.get_sql_from_llm model q schema st))
         = (log st ++ [EvGenerate prompt])%list)
  /\
  (contains "You are a Text-to-SQL expert." sql_instructions = true
   /\ contains "You must only output the SQL query and nothing else." sql_instructions = true
   /\ contains "Your default join MUST be a `LEFT JOIN` from `Demography` to `AdverseEvents`." sql_rules = true
   /\ contains "You MUST use `dm` for `Demography` and `ae` for `AdverseEvents`." sql_rules = true
   /\ contains "CAST(COUNT(DISTINCT ae.patient_id) AS REAL) * 100 / COUNT(DISTINCT dm.patient_id)" sql_rules = true
   /\ contains "You are a Text-to-SQL expert." Web.sql_instructions = true
   /\ contains "You must only output the SQL query and nothing else." Web.sql_instructions = true
   /\ contains "You MUST use the table aliases `dm` for the demography table, `ae` for the adverse events table, and `vs` for the vitals table." Web.sql_rules = true).
Proof.
  split; [|split].
  - intros model q schema h st Hparts history prompt. split.
    + unfold prompt, sql_prompt. find_in_order.
    + unfold _get_sql_from_llm, bind, lift, ret.
      rewrite (history_str_rendered Hparts). fold history. fold prompt.
      destruct (generate_content model prompt st) as [[text|e] st1] eqn:G;
        apply generate_content_log in G; exact G.
  - intros model q schema st prompt. split.
    + unfold prompt, Web.sql_prompt. find_in_order.
    + unfold Web.get_sql_from_llm, bind, ret. fold prompt.
      destruct (generate_content model prompt st) as [[text|e] st1] eqn:G;
        apply generate_content_log in G; exact G.
  - vm_compute. repeat split.
Qed.

End Synthesis.

(** C8, as the claim has it, fails in the web variant.  After the greeting
    and a first question the history holds two entries; the prompt of the
    synthesis holds neither of them as a line of role and text, so the five
    pieces of the claim do not occur in it. *)
Lemma web_prompt_omits_history :
  let schema := "CREATE TABLE Demography(patient_id, age)" in
  let q := "How many patients?" in
  let prompt := Web.sql_prompt schema q in
  log (snd (Web.get_sql_from_llm Demo.model q schema Demo.start))
  = [EvGenerate prompt]
  /\ contains "assistant: Hello! I am an AI clinical data assistant. How can I help you?" prompt = false
  /\ contains "user: How many patients?" prompt = false
  /\ ~ in_order
         [Web.sql_instructions; schema; Web.sql_rules;
          "assistant: Hello! I am an AI clinical data assistant. How can I help you?"
          ++ nl ++ "user: How many patients?";
          q]
         prompt.
Proof.
  intros schema q prompt. split; [reflexivity|].
  split; [vm_compute; reflexivity|]. split; [vm_compute; reflexivity|].
  intros H. apply in_order_contains in H.
  rewrite Forall_forall in H.
  specialize (H _ (or_intror (or_intror (or_intror (or_introl eq_refl))))).
  vm_compute in H. discriminate.
Qed.

(** ** The theorems of the turn on the small world *)

Lemma sentinel_never_reaches_executor_witness :
  (let st2 := snd (query_database Demo.model "Good morning" Demo.db [] Demo.start) in
   query_database Demo.model "Good morning" Demo.db [] Demo.start
   = (Ret not_a_query_reply, st2)
   /\ executor_calls (log st2) = executor_calls (log Demo.start))
  /\
  (let st2 := snd (Web.get_sql_from_llm Demo.model "Good morning"
                     (join nl ["CREATE TABLE Demography(patient_id, age)";
                               "CREATE TABLE AdverseEvents(patient_id, event)"])
                     {| world := tt; log := [EvCatalog] |}) in
   let st3 := snd (Web.chat_turn Demo.model Demo.db "Good morning" Demo.start) in
   Web.chat_turn Demo.model Demo.db "Good morning" Demo.start
   = (Ret "Good morning! Ask me about the patients.", st3)
   /\ log st3 = (log st2 ++ [EvGenerate (Web.small_talk_prompt "Good morning")])%list
   /\ executor_calls (log st3) = executor_calls (log Demo.start)).
Proof.
  split.
  - eapply (proj1 (@sentinel_never_reaches_executor unit _)
              Demo.model Demo.db "Good morning" [] Demo.start);
      reflexivity.
  - eapply (proj2 (@sentinel_never_reaches_executor unit _)
              Demo.model Demo.db "Good morning" Demo.start _ _ _ _
              (Ret "Good morning! Ask me about the patients."));
      reflexivity.
Defined.

Lemma empty_result_skips_composer_witness :
  (let st3 := snd (query_database Demo.model "Who is older than 90?" Demo.db []
                     Demo.start) in
   query_database Demo.model "Who is older than 90?" Demo.db [] Demo.start
   = (Ret no_results_reply, st3)
   /\ llm_calls (log st3) = llm_calls (log Demo.start) + 1)
  /\
  (let st3 := snd (Web.chat_turn Demo.model Demo.db "Who is older than 90?"
                     Demo.start) in
   Web.chat_turn Demo.model Demo.db "Who is older than 90?" Demo.start
   = (Ret no_results_reply, st3)
   /\ llm_calls (log st3) = llm_calls (log Demo.start) + 1).
Proof.
  split.
  - eapply (proj1 (@empty_result_skips_composer unit _)
              Demo.model Demo.db "Who is older than 90?" [] Demo.start);
      reflexivity.
  - eapply (proj1 (proj2 (@empty_result_skips_composer unit _))
              Demo.model Demo.db "Who is older than 90?" Demo.start);
      reflexivity.
Defined.

Lemma execution_failure_reply_witness :
  (exists reply,
      query_database Demo.model "How many visits?" Demo.db [] Demo.start
      = (Ret reply,
         snd (query_database Demo.model "How many visits?" Demo.db [] Demo.start))
      /\ contains "no such table: Nonexistent" reply = true
      /\ contains "SELECT * FROM Nonexistent" reply = true)
  /\
  (let st3 := snd (Web.chat_turn Demo.model Demo.db "How many visits?" Demo.start) in
   Web.chat_turn Demo.model Demo.db "How many visits?" Demo.start
   = (Ret ("An error occurred: " ++ str_exn (SqliteError "no such table: Nonexistent")),
      st3)
   /\ contains (str_exn (SqliteError "no such table: Nonexistent"))
        ("An error occurred: " ++ str_exn (SqliteError "no such table: Nonexistent"))
      = true
   /\ In (EvDiagnostic "SELECT * FROM Nonexistent") (log st3)).
Proof.
  split.
  - eapply (proj1 (@execution_failure_reply unit _)
              Demo.model Demo.db "How many visits?" [] Demo.start);
      reflexivity.
  - eapply (proj2 (@execution_failure_reply unit _)
              Demo.model Demo.db "How many visits?" Demo.start);
      reflexivity.
Defined.

Lemma synthesis_prompt_layout_witness :
  let h := [user_entry "Good morning"; model_entry not_a_query_reply] in
  let history := join nl (map rendered h) in
  let prompt := sql_prompt "CREATE TABLE Demography(patient_id, age)" history
                  "How many patients?" in
  history = "user: Good morning" ++ nl ++ "model: " ++ not_a_query_reply
  /\ in_order [sql_instructions; "CREATE TABLE Demography(patient_id, age)";
               sql_rules; history; "How many patients?"] prompt
  /\ log (snd (_get_sql_from_llm Demo.model "How many patients?"
                 "CREATE TABLE Demography(patient_id, age)" h Demo.start))
     = (log Demo.start ++ [EvGenerate prompt])%list.
Proof.
  intros h history prompt. split; [reflexivity|].
  apply (proj1 (@synthesis_prompt_layout unit) Demo.model "How many patients?"
           "CREATE TABLE Demography(patient_id, age)" h Demo.start).
  repeat constructor; discriminate.
Defined.

(** * Further properties of the two programs *)

(** ** What the cleanup keeps *)

Section Occurrences.

(** [s[n:]] *)
Fixpoint string_drop (n : nat) (s : string) : string :=
  match n, s with
  | O, _ => s
  | S _, EmptyString => EmptyString
  | S k, String _ r => string_drop k r
  end.

Lemma startswith_split (p s : string) :
  startswith p s = true -> exists b, s = p ++ b.
Proof.
  revert s. induction p as [|c p IH]; intros s H; [now exists s|].
  destruct s as [|d r]; [discriminate|].
  cbn [startswith] in H. apply andb_prop in H as [Hc Hp].
  apply Ascii.eqb_eq in Hc as ->. destruct (IH r Hp) as [b ->]. now exists b.
Qed.

Lemma contains_split (p s : string) :
  contains p s = true -> exists a b, s = a ++ p ++ b.
Proof.
  induction s as [|c r IH]; intros H.
  - cbn [contains] in H. rewrite orb_false_r in H.
    apply startswith_split in H as [b ->]. now exists EmptyString, b.
  - cbn [contains] in H. apply orb_prop in H as [H|H].
    + apply startswith_split in H as [b ->]. now exists EmptyString, b.
    + destruct (IH H) as (a & b & ->). now exists (String c a), b.
Qed.

Lemma lstrip_before (a t : string) :
  t <> EmptyString -> starts_with_space t = false ->
  lstrip (a ++ t) = lstrip a ++ t.
Proof.
  intros Ht Hstart. induction a as [|c r IH]; cbn [append lstrip].
  - now apply lstrip_fixed.
  - destruct (isspace c); [exact IH | reflexivity].
Qed.

Lemma rstrip_prefix (x y : string) :
  is_empty (rstrip y) = false -> rstrip (x ++ y) = x ++ rstrip y.
Proof.
  intros Hy. induction x as [|c r IH]; [reflexivity|].
  cbn [append rstrip]. rewrite IH.
  destruct r; cbn [append is_empty]; [rewrite Hy|]; now rewrite andb_false_r.
Qed.

Lemma rstrip_after (t b : string) :
  t <> EmptyString -> ends_with_space t = false ->
  rstrip (t ++ b) = t ++ rstrip b.
Proof.
  induction t as [|c r IH]; intros Ht Hend; [contradiction|].
  destruct r as [|d r'].
  - cbn in Hend. cbn [append rstrip]. now rewrite Hend.
  - cbn [append rstrip] in *. rewrite IH by (discriminate || exact Hend).
    cbn [append is_empty]. now rewrite andb_false_r.
Qed.

Lemma strip_around (a t b : string) :
  t <> EmptyString -> starts_with_space t = false -> ends_with_space t = false ->
  strip (a ++ t ++ b) = lstrip a ++ t ++ rstrip b.
Proof.
  intros Ht Hstart Hend. unfold strip.
  assert (Htb : t ++ b <> EmptyString) by (destruct t; [contradiction | discriminate]).
  assert (Hstart' : starts_with_space (t ++ b) = false)
    by (destruct t; [contradiction | exact Hstart]).
  rewrite (lstrip_before a Htb Hstart').
  rewrite rstrip_prefix; rewrite (rstrip_after b Ht Hend); [reflexivity|].
  destruct t; [contradiction | reflexivity].
Qed.

(** Deleting one character works piece by piece. *)
Lemma replace_char_append (c : ascii) (x y : string) :
  replace (String c EmptyString) "" (x ++ y)
  = replace (String c EmptyString) "" x ++ replace (String c EmptyString) "" y.
Proof.
  unfold replace. induction x as [|d r IH]; [reflexivity|].
  cbn [append replace_from startswith String.length Nat.sub].
  destruct (Ascii.eqb c d); cbn [andb append]; now rewrite IH.
Qed.

Lemma replace_char_absent (c : ascii) (t : string) :
  has_char c t = false -> replace (String c EmptyString) "" t = t.
Proof.
  intros H. apply replace_from_absent. now rewrite contains_char.
Qed.

Lemma replace_from_skip (old new s : string) :
  forall skip,
    replace_from old new skip s = replace_from old new 0 (string_drop skip s).
Proof.
  induction s as [|c r IH]; intros [|k]; try reflexivity.
  cbn [replace_from string_drop]. apply IH.
Qed.

(** Text with no letter s goes through the deletion of sql as it is. *)
Lemma replace_sql_through (t b : string) :
  has_char "s" t = false ->
  replace "sql" "" (t ++ b) = t ++ replace "sql" "" b.
Proof.
  unfold replace. induction t as [|c r IH]; intros H; [reflexivity|].
  cbn [has_char] in H. apply orb_false_elim in H as [Hc Hr].
  cbn [append replace_from startswith]. rewrite Hc. cbn [andb].
  now rewrite IH.
Qed.

Lemma replace_sql_cons (c : ascii) (r : string) :
  replace "sql" "" (String c r)
  = if startswith "sql" (String c r)
    then replace "sql" "" (string_drop 2 r)
    else String c (replace "sql" "" r).
Proof.
  unfold replace. cbn [replace_from].
  destruct (startswith "sql" (String c r)); [|reflexivity].
  cbn [String.length Nat.sub append]. apply replace_from_skip.
Qed.

(** An occurrence of sql cannot reach into text that starts with none of
    its letters: what stands before such text is cleaned on its own. *)
Lemma replace_sql_before (x : ascii) (t : string) :
  has_char x "sql" = false ->
  forall n a, String.length a <= n ->
    exists a', replace "sql" "" (a ++ String x t)
               = a' ++ replace "sql" "" (String x t).
Proof.
  intros Hx. cbn [has_char] in Hx.
  apply orb_false_elim in Hx as [Hs Hx]. apply orb_false_elim in Hx as [Hq Hx].
  apply orb_false_elim in Hx as [Hl _].
  induction n as [|n IH]; intros a Hlen.
  - destruct a; [|cbn in Hlen; lia]. now exists EmptyString.
  - destruct a as [|c r]; [now exists EmptyString|].
    cbn [String.length] in Hlen.
    change (String c r ++ String x t) with (String c (r ++ String x t)).
    rewrite replace_sql_cons.
    destruct (startswith "sql" (String c (r ++ String x t))) eqn:Hhere.
    + cbn [startswith] in Hhere. apply andb_prop in Hhere as [_ Hrest].
      destruct r as [|d [|e r']].
      * cbn [append startswith] in Hrest. rewrite Ascii.eqb_sym, Hq in Hrest.
        discriminate.
      * cbn [append startswith] in Hrest. apply andb_prop in Hrest as [_ Hrest].
        rewrite Ascii.eqb_sym, Hl in Hrest. discriminate.
      * cbn [append string_drop]. apply (IH r'). cbn [String.length] in Hlen. lia.
    + destruct (IH r ltac:(lia)) as [a' Ha'].
      rewrite Ha'. now exists (String c a').
Qed.

(** The cleanup keeps every occurrence of a text that has no whitespace at
    its ends, no backtick and no letter s, and that starts with neither q
    nor l. *)
Lemma cleanup_keeps (x : ascii) (t : string) :
  starts_with_space (String x t) = false ->
  ends_with_space (String x t) = false ->
  has_char (ascii_of_nat 96) (String x t) = false ->
  has_char "s" (String x t) = false ->
  has_char x "sql" = false ->
  forall text, contains (String x t) text = true ->
               contains (String x t) (cleanup text) = true.
Proof.
  intros Hstart Hend Htick Hs Hx text H.
  apply contains_split in H as (a & b & ->).
  unfold cleanup.
  rewrite strip_around by (discriminate || assumption).
  unfold backtick. rewrite !replace_char_append.
  rewrite (replace_char_absent _ _ Htick).
  set (a1 := replace (String (ascii_of_nat 96) EmptyString) "" (lstrip a)).
  set (b1 := replace (String (ascii_of_nat 96) EmptyString) "" (rstrip b)).
  change (String x t ++ b1) with (String x (t ++ b1)).
  destruct (@replace_sql_before x (t ++ b1) Hx (String.length a1) a1 (Nat.le_refl _))
    as [a' ->].
  change (String x (t ++ b1)) with (String x t ++ b1).
  rewrite (@replace_sql_through (String x t) b1 Hs). apply contains_middle.
Qed.

End Occurrences.

(** X1.  A sentinel in the raw answer of the LLM survives the cleanup,
    whatever stands around it: whitespace, a fence, prose, the letters
    sql. *)
Theorem sentinel_survives_cleanup (text : string) :
  contains "NOT_A_QUERY" text = true ->
  contains "NOT_A_QUERY" (cleanup text) = true.
Proof. now apply cleanup_keeps. Qed.

Lemma sentinel_survives_cleanup_witness :
  contains "NOT_A_QUERY"
    (cleanup ("```sql" ++ nl ++ "NOT_A_QUERY (this is small talk)" ++ nl ++ "```"))
  = true.
Proof.
  apply (sentinel_survives_cleanup
           ("```sql" ++ nl ++ "NOT_A_QUERY (this is small talk)" ++ nl ++ "```")).
  reflexivity.
Defined.

(** ** What a turn calls, and in which order *)

(** A candidate that may reach the database: it is no sentinel, and the
    cleanup has left no backtick in it. *)
Definition candidate_ok (sql : string) : bool :=
  negb (contains "NOT_A_QUERY" sql) && negb (contains backtick sql).

(** The calls of an interactive turn: the catalog query; then at most one
    synthesis; then at most one execution, of a candidate that was shown
    first; then at most one call of the composer. *)
Definition turn_trace (l : list event) : bool :=
  match l with
  | [EvCatalog] => true
  | [EvCatalog; EvGenerate _] => true
  | [EvCatalog; EvGenerate _; EvDiagnostic shown; EvExecute sql] =>
      String.eqb shown sql && candidate_ok sql
  | [EvCatalog; EvGenerate _; EvDiagnostic shown; EvExecute sql; EvGenerate _] =>
      String.eqb shown sql && candidate_ok sql
  | _ => false
  end.

(** The calls of a web turn: as above, or the small talk after the
    synthesis. *)
Definition web_turn_trace (l : list event) : bool :=
  match l with
  | [EvCatalog; EvGenerate _; EvGenerate _] => true
  | _ => turn_trace l
  end.

Section Traces.
Context {W : Type} {console : Console W}.
Implicit Types (st : state W) (model : Model W) (db : Connection W).

Lemma candidate_ok_cleanup (text : string) :
  contains "NOT_A_QUERY" (cleanup text) = false ->
  candidate_ok (cleanup text) = true.
Proof.
  intros H. unfold candidate_ok. now rewrite H, cleanup_no_backtick.
Qed.

(** Case analysis on every answer of the LLM and of the database, from the
    first call of the turn to the last. *)
Ltac split_calls :=
  cbv beta iota;
  repeat (match goal with
          | |- context [match ?x with _ => _ end] =>
              lazymatch x with
              | context [match _ with _ => _ end] => fail
              | _ => destruct x eqn:?
              end
          end; cbv beta iota).

Ltac close_trace :=
  cbn [snd log record world];
  eexists; split;
  [ rewrite <- ?app_assoc; cbn [app]; reflexivity
  | cbn [turn_trace web_turn_trace];
    rewrite ?String.eqb_refl, ?candidate_ok_cleanup by assumption;
    reflexivity ].

(** X2.  Whatever the LLM and the database answer, an interactive turn
    adds to the log one of five sequences of calls.  So it queries the
    catalog once and first, calls the LLM at most twice, executes at most
    one statement and none before the synthesis, and what it executes is
    what it has shown: a cleaned candidate, with no sentinel and no
    backtick in it. *)
Theorem interactive_turn_calls model q db h st :
  exists l,
    log (snd (query_database model q db h st)) = (log st ++ l)%list
    /\ turn_trace l = true.
Proof.
  unfold query_database, answer_query, _get_sql_from_llm,
    _format_response_naturally, except_clauses.
  unfold try_except, bind, fetch_schema_statements, generate_content,
    cursor_execute, print_generated_sql, lift, ret, raise.
  split_calls; close_trace.
Qed.

(** X3.  Whatever the LLM and the database answer, a web turn adds to the
    log one of six sequences of calls: those of the interactive turn, or a
    synthesis followed by the small talk.  So it too executes at most one
    statement, never before the synthesis, and only a cleaned candidate
    with no sentinel in it that it has shown. *)
Theorem web_turn_calls model db q st :
  exists l,
    log (snd (Web.chat_turn model db q st)) = (log st ++ l)%list
    /\ web_turn_trace l = true.
Proof.
  unfold Web.chat_turn, Web.get_sql_from_llm, Web.format_response_naturally.
  unfold try_except, bind, fetch_schema_statements, generate_content,
    cursor_execute, show_sql, lift, ret, raise.
  split_calls; close_trace.
Qed.

(** X4.  When the synthesis raises (the history does not render, the model
    is not found, the service fails), the turn still ends in a reply, the
    reply holds the text of the error, and nothing is executed.  For a
    model that is not found under the old API version the interactive reply
    tells to upgrade the client library. *)
Theorem synthesis_failure_reply :
  (forall model db q h st stmts st1 e st2,
      fetch_schema_statements db st = (Ret stmts, st1) ->
      _get_sql_from_llm model q (join nl stmts) h st1 = (Raise e, st2) ->
      exists reply,
        query_database model q db h st = (Ret reply, st2)
        /\ contains (str_exn e) reply = true
        /\ executor_calls (log st2) = executor_calls (log st)
        /\ (forall msg, e = NotFound msg -> contains "v1beta" msg = true ->
            contains "pip install --upgrade google-generativeai" reply = true))
  /\
  (forall model db q st stmts st1 e st2,
      fetch_schema_statements db st = (Ret stmts, st1) ->
      Web.get_sql_from_llm model q (join nl stmts) st1 = (Raise e, st2) ->
      Web.chat_turn model db q st = (Ret ("An error occurred: " ++ str_exn e), st2)
      /\ executor_calls (log st2) = executor_calls (log st)).
Proof.
  split.
  - intros model db q h st stmts st1 e st2 Hfetch Hsynth.
    assert (Hturn : query_database model q db h st = except_clauses None e st2).
    { unfold query_database, bind at 1. rewrite Hfetch.
      unfold try_except at 1, bind at 1. now rewrite Hsynth. }
    assert (Hexec : executor_calls (log st2) = executor_calls (log st)).
    { apply fetch_schema_statements_log in Hfetch.
      revert Hsynth. unfold _get_sql_from_llm, bind, lift, ret.
      destruct (history_str h) as [history|e0].
      - destruct (generate_content model _ st1) as [[text|e1] st3] eqn:G;
          [discriminate|].
        intros [= _ <-]. apply generate_content_log in G.
        rewrite G, Hfetch, !executor_calls_app. unfold executor_calls. simpl. lia.
      - intros [= _ <-]. rewrite Hfetch, executor_calls_app.
        unfold executor_calls. simpl. lia. }
    rewrite Hturn. destruct e as [msg|msg|msg]; cbn [except_clauses str_exn].
    + destruct (contains "v1beta" msg) eqn:Hold; eexists;
        (split; [reflexivity|]); (split; [|split; [exact Hexec|]]).
      * rewrite <- (append_empty_r msg) at 2. apply contains_middle.
      * intros _ _ _. reflexivity.
      * rewrite <- (append_empty_r msg) at 2. apply contains_middle.
      * intros m [= <-] Hm. rewrite Hm in Hold. discriminate.
    + now apply get_sql_no_sqlite in Hsynth.
    + eexists. split; [reflexivity|]. split; [|split; [exact Hexec|]].
      * rewrite <- (append_empty_r msg) at 2. apply contains_middle.
      * intros m [=].
  - intros model db q st stmts st1 e st2 Hfetch Hsynth. split.
    + unfold Web.chat_turn, try_except, bind at 1. rewrite Hfetch.
      unfold bind at 1. now rewrite Hsynth.
    + apply fetch_schema_statements_log in Hfetch.
      revert Hsynth. unfold Web.get_sql_from_llm, bind, ret.
      destruct (generate_content model _ st1) as [[text|e1] st3] eqn:G;
        [discriminate|].
      intros [= _ <-]. apply generate_content_log in G.
      rewrite G, Hfetch, !executor_calls_app. unfold executor_calls. simpl. lia.
Qed.

(** X5.  In the web variant an error of the schema fetch becomes the reply
    of the turn, and the turn stops there: no LLM call, no execution. *)
Theorem web_schema_failure_reply model db q st e st1 :
  fetch_schema_statements db st = (Raise e, st1) ->
  Web.chat_turn model db q st = (Ret ("An error occurred: " ++ str_exn e), st1)
  /\ log st1 = (log st ++ [EvCatalog])%list.
Proof.
  intros Hfetch. split.
  - unfold Web.chat_turn, try_except, bind at 1. now rewrite Hfetch.
  - now apply fetch_schema_statements_log in Hfetch.
Qed.

(** X6.  End to end: when the candidate is no sentinel, the diagnostic
    print succeeds and the execution gives one row of one column, the
    interactive turn replies with the fixed words and the cell, and the
    synthesis is the only LLM call of the turn. *)
Theorem single_cell_turn model db q h st stmts st1 sql st2 shown cur st3 name v :
  fetch_schema_statements db st = (Ret stmts, st1) ->
  _get_sql_from_llm model q (join nl stmts) h st1 = (Ret sql, st2) ->
  contains "NOT_A_QUERY" sql = false ->
  print_generated_sql sql st2 = (Ret tt, shown) ->
  cursor_execute db sql shown = (Ret cur, st3) ->
  description cur = Some [name] ->
  rows cur = [[v]] ->
  query_database model q db h st = (Ret ("The answer is: " ++ str_value v), st3)
  /\ llm_calls (log st3) = llm_calls (log st) + 1
  /\ executor_calls (log st3) = executor_calls (log st) + 1.
Proof.
  intros Hfetch Hsynth Hsql Hprint Hrun Hdesc Hrows. split.
  - erewrite query_database_after_synthesis by eassumption.
    unfold try_except, answer_query. rewrite Hsql.
    unfold bind at 1. rewrite Hprint.
    unfold bind at 1. rewrite Hrun, Hrows, Hdesc.
    reflexivity.
  - destruct (log_after_synthesis model db q h st Hfetch Hsynth) as [Hexec Hllm].
    apply cursor_execute_log in Hrun. apply print_generated_sql_log in Hprint.
    rewrite Hrun, Hprint.
    rewrite !llm_calls_app, !executor_calls_app, Hllm, Hexec.
    unfold llm_calls, executor_calls. simpl. lia.
Qed.

(** X17.  The diagnostic print stands inside the try block.  When it raises
    (a standard output that cannot encode the robot face), the interactive
    turn replies with the text of that error behind the words of the
    catch-all clause, whatever the candidate was, and executes nothing. *)
Theorem diagnostic_print_failure_reply model db q h st stmts st1 sql st2 e st3 :
  fetch_schema_statements db st = (Ret stmts, st1) ->
  _get_sql_from_llm model q (join nl stmts) h st1 = (Ret sql, st2) ->
  contains "NOT_A_QUERY" sql = false ->
  print_generated_sql sql st2 = (Raise e, st3) ->
  query_database model q db h st
  = (Ret ("An unexpected error occurred: " ++ str_exn e), st3)
  /\ log st3 = log st2
  /\ executor_calls (log st3) = executor_calls (log st).
Proof.
  intros Hfetch Hsynth Hsql Hprint.
  assert (Hshape : exists msg, e = OtherException msg /\ log st3 = log st2).
  { revert Hprint. unfold print_generated_sql.
    destruct (print_line sql (world st2)) as [[|msg] w]; [discriminate|].
    intros [= <- <-]. now exists msg. }
  destruct Hshape as (msg & -> & Hlog).
  split; [|split; [exact Hlog|]].
  - erewrite query_database_after_synthesis by eassumption.
    unfold try_except, answer_query. rewrite Hsql.
    unfold bind at 1. rewrite Hprint. reflexivity.
  - rewrite Hlog.
    now destruct (log_after_synthesis model db q h st Hfetch Hsynth).
Qed.

End Traces.

Lemma synthesis_failure_reply_witness :
  (exists reply,
      query_database Demo.offline_model "How many patients?" Demo.db []
        Demo.start
      = (Ret reply,
         snd (query_database Demo.offline_model "How many patients?" Demo.db []
                Demo.start))
      /\ contains "503 The service is unavailable." reply = true)
  /\ fst (Web.chat_turn Demo.offline_model Demo.db "How many patients?" Demo.start)
     = Ret "An error occurred: 503 The service is unavailable.".
Proof.
  split.
  - edestruct (proj1 (@synthesis_failure_reply unit _) Demo.offline_model Demo.db
                 "How many patients?" [] Demo.start)
      as (reply & Hturn & Htext & _); [reflexivity | reflexivity |].
    exists reply. split; [exact Hturn | exact Htext].
  - edestruct (proj2 (@synthesis_failure_reply unit _) Demo.offline_model Demo.db
                 "How many patients?" Demo.start)
      as [Hturn _]; [reflexivity | reflexivity |].
    rewrite Hturn. reflexivity.
Defined.

Lemma web_schema_failure_reply_witness :
  Web.chat_turn Demo.model Demo.broken_db "How many patients?" Demo.start
  = (Ret "An error occurred: database disk image is malformed",
     {| world := tt; log := [EvCatalog] |})
  /\ log {| world := tt; log := [EvCatalog] |} = (log Demo.start ++ [EvCatalog])%list.
Proof.
  apply (@web_schema_failure_reply unit Demo.model Demo.broken_db
           "How many patients?" Demo.start
           (SqliteError "database disk image is malformed")).
  reflexivity.
Defined.

Lemma single_cell_turn_witness :
  let st3 := snd (query_database Demo.model "How many patients?" Demo.db []
                    Demo.start) in
  query_database Demo.model "How many patients?" Demo.db [] Demo.start
  = (Ret ("The answer is: " ++ str_value (VInt 3)), st3)
  /\ llm_calls (log st3) = llm_calls (log Demo.start) + 1
  /\ executor_calls (log st3) = executor_calls (log Demo.start) + 1.
Proof.
  eapply (@single_cell_turn unit _ Demo.model Demo.db "How many patients?" []
            Demo.start);
    reflexivity.
Defined.

Lemma diagnostic_print_failure_reply_witness :
  let st3 := snd (@query_database unit Demo.legacy_console Demo.model
                    "How many patients?" Demo.db [] Demo.start) in
  @query_database unit Demo.legacy_console Demo.model "How many patients?"
    Demo.db [] Demo.start
  = (Ret ("An unexpected error occurred: "
          ++ str_exn (OtherException "'charmap' codec can't encode character '\U0001f916' in position 0: character maps to <undefined>")),
     st3)
  /\ log st3
     = log (snd (_get_sql_from_llm Demo.model "How many patients?"
                   (join nl ["CREATE TABLE Demography(patient_id, age)";
                             "CREATE TABLE AdverseEvents(patient_id, event)"])
                   [] {| world := tt; log := [EvCatalog] |}))
  /\ executor_calls (log st3) = executor_calls (log Demo.start).
Proof.
  eapply (@diagnostic_print_failure_reply unit Demo.legacy_console Demo.model
            Demo.db "How many patients?" [] Demo.start);
    reflexivity.
Defined.

(** ** The composer beyond the single cell *)

Section Stripped.

Lemma lstrip_settled (s : string) : starts_with_space (lstrip s) = false.
Proof.
  induction s as [|c r IH]; [reflexivity|].
  cbn [lstrip]. destruct (isspace c) eqn:Hc; [exact IH | exact Hc].
Qed.

Lemma rstrip_settled (s : string) : ends_with_space (rstrip s) = false.
Proof.
  induction s as [|c r IH]; [reflexivity|].
  cbn [rstrip]. destruct (isspace c && is_empty (rstrip r)) eqn:Hdrop;
    [reflexivity|].
  destruct (rstrip r) as [|d r'].
  - cbn [is_empty] in Hdrop. rewrite andb_true_r in Hdrop. exact Hdrop.
  - exact IH.
Qed.

Lemma rstrip_keeps_start (s : string) :
  starts_with_space s = false -> starts_with_space (rstrip s) = false.
Proof.
  destruct s as [|c r]; [reflexivity|].
  cbn [starts_with_space rstrip]. intros Hc. rewrite Hc. cbn [andb].
  exact Hc.
Qed.

Lemma strip_settled (s : string) :
  starts_with_space (strip s) = false /\ ends_with_space (strip s) = false.
Proof.
  unfold strip. split.
  - apply rstrip_keeps_start, lstrip_settled.
  - apply rstrip_settled.
Qed.

Lemma contains_trans (a b c : string) :
  contains a b = true -> contains b c = true -> contains a c = true.
Proof.
  intros Hab Hbc.
  apply contains_split in Hab as (p & q & ->).
  apply contains_split in Hbc as (u & v & ->).
  rewrite !append_assoc, <- (append_assoc u p). apply contains_middle.
Qed.

Lemma contains_self (a : string) : contains a a = true.
Proof. rewrite <- (append_empty_r a) at 2. apply (contains_middle a ""). Qed.

Lemma contains_append_l (p s b : string) :
  contains p s = true -> contains p (s ++ b) = true.
Proof.
  intros H. apply contains_split in H as (u & v & ->).
  rewrite !append_assoc. apply contains_middle.
Qed.

Lemma join_contains (sep x : string) (items : list string) :
  In x items -> contains x (join sep items) = true.
Proof.
  induction items as [|y rest IH]; [contradiction|].
  intros [-> | Hin].
  - destruct rest; [apply contains_self|].
    apply (contains_middle x "").
  - destruct rest as [|z rest']; [contradiction|].
    change (join sep (y :: z :: rest')) with (y ++ sep ++ join sep (z :: rest')).
    now apply contains_append_r, contains_append_r, IH.
Qed.

(** The line of a row holds the text of each of its cells. *)
Lemma row_line_contains (row : list value) (v : value) :
  In v row -> contains (str_value v) (join ", " (map str_value row)) = true.
Proof. intros H. apply join_contains, in_map, H. Qed.

Lemma data_block_fold (results : list (list value)) :
  forall acc x,
    contains x acc = true
    \/ (exists row, In row results
                    /\ contains x (join ", " (map str_value row)) = true) ->
    contains x
      (fold_left
         (fun data_string row => data_string ++ join ", " (map str_value row) ++ nl)
         results acc) = true.
Proof.
  induction results as [|row rest IH]; intros acc x H; cbn [fold_left].
  - destruct H as [H | (row & [] & _)]. exact H.
  - apply IH. destruct H as [H | (row' & [<- | Hin] & Hrow)].
    + left. now apply contains_append_l.
    + left. now apply contains_append_r, contains_append_l.
    + right. now exists row'.
Qed.

End Stripped.

Section ComposerPrompt.
Context {W : Type}.
Implicit Types (st : state W) (model : Model W).

(** X7.  Beyond the single cell, the composer sends one prompt, which holds
    the rendered history (interactive variant only), the question and the
    data block, in this order, and its reply is the answer of the LLM less
    the whitespace at its ends. *)
Theorem composer_general_path :
  (forall model q results column_names h st text st',
      Forall (fun msg => parts msg <> []) h ->
      (length results =? 1)%nat && (length column_names =? 1)%nat = false ->
      let history := join nl (map rendered h) in
      let data_string := data_block results column_names in
      let prompt := answer_prompt history q data_string in
      generate_content model prompt st = (Ret text, st') ->
      _format_response_naturally model q results column_names h st
      = (Ret (strip text), st')
      /\ in_order [history; q; data_string] prompt
      /\ starts_with_space (strip text) = false
      /\ ends_with_space (strip text) = false)
  /\
  (forall model q results column_names st text st',
      results <> [] ->
      let data_string := Web.data_block results column_names in
      let prompt := Web.answer_prompt q data_string in
      generate_content model prompt st = (Ret text, st') ->
      Web.format_response_naturally model q results column_names st
      = (Ret (strip text), st')
      /\ in_order [q; data_string] prompt
      /\ starts_with_space (strip text) = false
      /\ ends_with_space (strip text) = false).
Proof.
  split.
  - intros model q results column_names h st text st' Hparts Hmany
      history data_string prompt Hgen.
    destruct (strip_settled text) as [Hstart Hend].
    repeat split; try assumption.
    + unfold _format_response_naturally. rewrite Hmany.
      unfold bind, lift, ret. rewrite (history_str_rendered Hparts).
      fold history. fold data_string. fold prompt. now rewrite Hgen.
    + unfold prompt, answer_prompt. find_in_order.
  - intros model q results column_names st text st' Hrows data_string prompt Hgen.
    destruct (strip_settled text) as [Hstart Hend].
    repeat split; try assumption.
    + unfold Web.format_response_naturally.
      destruct results; [contradiction|]. cbn [is_nil].
      unfold bind, ret. fold data_string. fold prompt. now rewrite Hgen.
    + unfold prompt, Web.answer_prompt. find_in_order.
Qed.

End ComposerPrompt.

(** X8.  The data block the composer puts in its prompt holds every column
    name and the text of every cell of the result, in both variants. *)
Theorem data_block_holds_every_cell :
  (forall results column_names,
      (forall name, In name column_names ->
                    contains name (data_block results column_names) = true)
      /\ (forall row v, In row results -> In v row ->
                        contains (str_value v) (data_block results column_names)
                        = true))
  /\
  (forall results column_names,
      (forall name, In name column_names ->
                    contains name (Web.data_block results column_names) = true)
      /\ (forall row v, In row results -> In v row ->
                        contains (str_value v) (Web.data_block results column_names)
                        = true)).
Proof.
  split; intros results column_names; split.
  - intros name Hin. unfold data_block. apply data_block_fold. left.
    apply contains_append_l. now apply join_contains.
  - intros row v Hrow Hv. unfold data_block. apply data_block_fold. right.
    exists row. split; [exact Hrow | now apply row_line_contains].
  - intros name Hin. unfold Web.data_block.
    apply contains_append_l. now apply join_contains.
  - intros row v Hrow Hv. unfold Web.data_block.
    apply contains_append_r, contains_append_r.
    apply contains_trans with (b := join ", " (map str_value row)).
    + now apply row_line_contains.
    + apply join_contains.
      apply (in_map (fun row => join ", " (map str_value row))), Hrow.
Qed.

Lemma composer_general_path_witness :
  let results := [[VInt 1; VInt 34]; [VInt 2; VInt 61]] in
  let data_string := data_block results ["patient_id"; "age"] in
  let prompt := answer_prompt EmptyString "List patients" data_string in
  _format_response_naturally Demo.model "List patients" results
    ["patient_id"; "age"] [] Demo.start
  = (Ret (strip " Here is what I found for you. "),
     {| world := tt; log := [EvGenerate prompt] |})
  /\ in_order [EmptyString; "List patients"; data_string] prompt
  /\ starts_with_space (strip " Here is what I found for you. ") = false
  /\ ends_with_space (strip " Here is what I found for you. ") = false.
Proof.
  intros results data_string prompt.
  apply (proj1 (@composer_general_path unit) Demo.model "List patients" results
           ["patient_id"; "age"] [] Demo.start).
  - constructor.
  - reflexivity.
  - reflexivity.
Defined.

Lemma data_block_holds_every_cell_witness :
  contains (str_value (VInt 61))
    (data_block [[VInt 1; VInt 34]; [VInt 2; VInt 61]] ["patient_id"; "age"])
  = true
  /\ contains (str_value (VInt 61))
       (Web.data_block [[VInt 1; VInt 34]; [VInt 2; VInt 61]] ["patient_id"; "age"])
     = true.
Proof.
  split.
  - apply (proj2 (proj1 data_block_holds_every_cell
                    [[VInt 1; VInt 34]; [VInt 2; VInt 61]] ["patient_id"; "age"])
             [VInt 2; VInt 61] (VInt 61)).
    + right. left. reflexivity.
    + right. left. reflexivity.
  - apply (proj2 (proj2 data_block_holds_every_cell
                    [[VInt 1; VInt 34]; [VInt 2; VInt 61]] ["patient_id"; "age"])
             [VInt 2; VInt 61] (VInt 61)).
    + right. left. reflexivity.
    + right. left. reflexivity.
Defined.

(** ** The session as a whole *)

(** The two entries a turn leaves: the question and the reply. *)
Definition turn_entries (turn : string * string) : list message :=
  [user_entry (fst turn); model_entry (snd turn)].

Section Window.

Lemma last_n_of_trimmed {A} (n k : nat) (l x : list A) :
  k <= length l + length x - n ->
  last_n n (skipn k l ++ x) = last_n n (l ++ x).
Proof.
  intros Hk. unfold last_n.
  destruct (Nat.le_gt_cases k (length l)) as [Hle|Hgt].
  - rewrite !length_app, length_skipn.
    replace (length l + length x - n)
      with ((length l - k + length x - n) + k) by lia.
    rewrite <- skipn_skipn, (skipn_app k l x).
    replace (k - length l) with 0 by lia. reflexivity.
  - rewrite (skipn_all2 l) by lia. cbn [app].
    rewrite !length_app, skipn_app.
    rewrite (skipn_all2 l) by lia. cbn [app].
    f_equal. lia.
Qed.

(** Trimming after every turn is trimming once at the end. *)
Lemma remember_of_trimmed (l : list message) (q r : string) :
  remember (last_n (2 * MAX_HISTORY_TURNS) l) q r
  = last_n (2 * MAX_HISTORY_TURNS) (l ++ turn_entries (q, r)).
Proof.
  rewrite remember_last_n. unfold last_n at 2.
  apply last_n_of_trimmed. cbn [turn_entries length]. lia.
Qed.

End Window.

(** The turns were answered one after the other, from the history [h] in
    the state [st] to the state [st_end]: no question is a quit word, each
    reply is what [query_database] returned for the question and the
    history of that moment, and the next turn starts from what [remember]
    made of the two. *)
Fixpoint answered {W : Type} {console : Console W}
    (model : Model W) (db : Connection W) (turns : list (string * string))
    (h : list message) (st st_end : state W) : Prop :=
  match turns with
  | [] => st_end = st
  | turn :: later =>
      is_quit (fst turn) = false
      /\ exists st1,
           query_database model (fst turn) db h st = (Ret (snd turn), st1)
           /\ answered model db later (remember h (fst turn) (snd turn)) st1 st_end
  end.

Section Session.
Context {W : Type} {console : Console W}.
Implicit Types (st : state W) (model : Model W) (db : Connection W).

(** X9.  What is typed after the first quit word is never read: it changes
    neither the outcome of the session nor the calls it makes. *)
Theorem quit_stops_reading model db before q after after' :
  is_quit q = true ->
  forall h st,
    interactive_loop model db (before ++ q :: after) h st
    = interactive_loop model db (before ++ q :: after') h st.
Proof.
  intros Hquit. induction before as [|line rest IH]; intros h st.
  - cbn [app interactive_loop]. unfold bind, loop_body. now rewrite Hquit.
  - cbn [app interactive_loop]. unfold bind.
    destruct (loop_body model db line h st) as [[[h'|]|e] st1]; try reflexivity.
    apply IH.
Qed.

Lemma session_history_from model db lines :
  forall done h st h_end st',
    h = last_n (2 * MAX_HISTORY_TURNS) (flat_map turn_entries done) ->
    interactive_loop model db lines h st = (Ret h_end, st') ->
    exists turns q rest,
      lines = (map fst turns ++ q :: rest)%list
      /\ is_quit q = true
      /\ answered model db turns h st st'
      /\ h_end = last_n (2 * MAX_HISTORY_TURNS)
                   (flat_map turn_entries (done ++ turns)).
Proof.
  induction lines as [|line rest IH]; intros done h st h_end st' Hh;
    [discriminate|].
  cbn [interactive_loop]. unfold bind at 1.
  destruct (loop_body model db line h st) as [[[h1|]|e] st1] eqn:Hturn;
    [| |discriminate].
  - intros Hrest.
    apply loop_body_continues in Hturn as (Hline & response & Hreply & ->).
    assert (Hnext : remember h line response
                    = last_n (2 * MAX_HISTORY_TURNS)
                        (flat_map turn_entries (done ++ [(line, response)]))).
    { rewrite Hh, flat_map_app. cbn [flat_map]. rewrite app_nil_r.
      apply remember_of_trimmed. }
    destruct (IH _ _ _ _ _ Hnext Hrest)
      as (turns & q & rest' & -> & Hq & Hturns & ->).
    exists ((line, response) :: turns), q, rest'.
    repeat split; try assumption.
    + exists st1. now split.
    + now rewrite <- app_assoc.
  - intros [= <- <-].
    assert (Hquit : is_quit line = true /\ st1 = st).
    { revert Hturn. unfold loop_body. destruct (is_quit line).
      - intros [= <-]. now split.
      - unfold bind, ret.
        destruct (query_database model line db h st) as [[?|?] ?]; discriminate. }
    destruct Hquit as [Hquit ->].
    exists [], line, rest. rewrite app_nil_r. now repeat split.
Qed.

(** X10.  A session returns only through a quit word.  The lines before it
    were each answered: each was sent to [query_database] with the history
    of its moment, and each got a reply.  The history the session ends
    with is made of these questions and these replies, those of the last
    [MAX_HISTORY_TURNS] turns (of all of them while they are fewer), in the
    order they were asked; the state it ends in is the one the last answer
    left. *)
Theorem session_history model db lines st h_end st' :
  interactive_loop model db lines [] st = (Ret h_end, st') ->
  exists turns q rest,
    lines = (map fst turns ++ q :: rest)%list
    /\ is_quit q = true
    /\ answered model db turns [] st st'
    /\ h_end = last_n (2 * MAX_HISTORY_TURNS) (flat_map turn_entries turns).
Proof.
  intros Hrun.
  eapply session_history_from with (done := []); [reflexivity | exact Hrun].
Qed.

(** X11.  With a connection and a model, the web handler never raises on a
    prompt that is not empty: it appends the prompt and then the reply of
    the turn to the transcript, and evicts nothing.  Without one of the
    two, it raises on the unbound [response_text]. *)
Theorem chat_handler_appends_turn :
  (forall model db prompt messages st,
      prompt <> EmptyString ->
      exists reply st',
        Web.chat_turn model db prompt st = (Ret reply, st')
        /\ Web.chat_handler (Some model) (Some db) prompt messages st
           = (Ret (messages
                   ++ [{| Web.role := "user"; Web.content := prompt |};
                       {| Web.role := "assistant"; Web.content := reply |}])%list,
              st'))
  /\
  (forall (model : option (Model W)) (db : option (Connection W))
          prompt messages st,
      prompt <> EmptyString ->
      model = None \/ db = None ->
      Web.chat_handler model db prompt messages st
      = (Raise (OtherException "name 'response_text' is not defined"), st)).
Proof.
  split.
  - intros model db prompt messages st Hprompt.
    assert (Hreply : exists reply st',
               Web.chat_turn model db prompt st = (Ret reply, st')).
    { unfold Web.chat_turn, try_except.
      match goal with |- context [match ?body st with _ => _ end] =>
        destruct (body st) as [[reply|e] st1]
      end; eexists; eexists; reflexivity. }
    destruct Hreply as (reply & st' & Hturn).
    exists reply, st'. split; [exact Hturn|].
    unfold Web.chat_handler. destruct prompt; [contradiction|].
    cbn [is_empty]. unfold bind, ret. rewrite Hturn.
    now rewrite <- app_assoc.
  - intros model db prompt messages st Hprompt Hnone.
    unfold Web.chat_handler. destruct prompt; [contradiction|].
    cbn [is_empty].
    destruct Hnone as [-> | ->]; [destruct db|]; reflexivity.
Qed.

End Session.

Lemma quit_stops_reading_witness :
  interactive_loop Demo.model Demo.db
    (["How many patients?"] ++ "EXIT" :: ["How many visits?"]) [] Demo.start
  = interactive_loop Demo.model Demo.db
      (["How many patients?"] ++ "EXIT" :: []) [] Demo.start.
Proof.
  apply (@quit_stops_reading unit _ Demo.model Demo.db ["How many patients?"]
           "EXIT" ["How many visits?"] []).
  reflexivity.
Defined.

Lemma session_history_witness :
  let lines := ["How many patients?"; "Good morning"; "quit"; "How many visits?"] in
  let st' := snd (interactive_loop Demo.model Demo.db lines [] Demo.start) in
  exists turns q rest,
    lines = (map fst turns ++ q :: rest)%list
    /\ is_quit q = true
    /\ answered Demo.model Demo.db turns [] Demo.start st'
    /\ [user_entry "How many patients?"; model_entry "The answer is: 3";
        user_entry "Good morning"; model_entry not_a_query_reply]
       = last_n (2 * MAX_HISTORY_TURNS) (flat_map turn_entries turns).
Proof.
  intros lines st'.
  apply (@session_history unit _ Demo.model Demo.db lines Demo.start _ st').
  reflexivity.
Defined.

Lemma chat_handler_appends_turn_witness :
  exists reply st',
    Web.chat_turn Demo.model Demo.db "Good morning" Demo.start = (Ret reply, st')
    /\ Web.chat_handler (Some Demo.model) (Some Demo.db) "Good morning"
         [Web.greeting] Demo.start
       = (Ret ([Web.greeting]
               ++ [{| Web.role := "user"; Web.content := "Good morning" |};
                   {| Web.role := "assistant"; Web.content := reply |}])%list,
          st').
Proof.
  apply (proj1 (@chat_handler_appends_turn unit) Demo.model Demo.db
           "Good morning" [Web.greeting] Demo.start).
  discriminate.
Defined.

(** ** Start-up *)

Section StartupFacts.
Context {W : Type} {console : Console W}.
Implicit Types (st : state W) (env : Environment W).

(** X12.  Either every check of the start-up passes (the client library is
    installed and recent enough, the key is set, the model is configured,
    the schema file is read and its script runs), and the run is the loop on
    that model and that connection, from the empty history; or the run ends
    before a line is read: no turn has run, so the log of the turns (catalog
    queries, LLM calls, statements shown and executed) is as it was, and
    the run does not end by closing the connection.  The schema script of
    the start-up is no call of a turn: it may have run before such an
    end. *)
Theorem main_reads_lines_only_when_ready env lines st :
  (exists key model sql_script,
      gg_version_too_old env = Some false
      /\ api_key env = Some key /\ key <> EmptyString
      /\ configure env = Ret model
      /\ schema_file env = Contents sql_script
      /\ (exists u, executescript env sql_script = Ret u)
      /\ main env lines st
         = match interactive_loop model (connection env) lines [] st with
           | (Ret chat_history, st') => (Closed chat_history, st')
           | (Raise e, st') => (Traceback e, st')
           end)
  \/ (log (snd (main env lines st)) = log st
      /\ forall chat_history, fst (main env lines st) <> Closed chat_history).
Proof.
  unfold main, setup_database.
  destruct (gg_version_too_old env) as [[|]|];
    try (right; split; [reflexivity | discriminate]).
  destruct (schema_file env) as [|e|sql_script].
  - right; split; [reflexivity | discriminate].
  - right. destruct e; split; (reflexivity || discriminate).
  - destruct (executescript env sql_script) as [u|e] eqn:Hscript.
    + destruct (api_key env) as [key|];
        [|right; split; [reflexivity | discriminate]].
      destruct key as [|c key];
        [right; split; [reflexivity | discriminate]|].
      cbn [is_empty].
      destruct (configure env) as [model|e];
        [|right; split; [reflexivity | discriminate]].
      left. exists (String c key), model, sql_script.
      repeat split; try reflexivity; try discriminate.
      now exists u.
    + right. destruct e; split; (reflexivity || discriminate).
Qed.

(** X13.  With the client library in place and the schema loaded, a run
    without the API key does not reach the exit that start-up has for a
    missing model: the name [model] was never assigned, and reading it
    raises NameError.  When the schema file is missing too, the run does
    end on that exit. *)
Theorem missing_key_outcome env lines st :
  gg_version_too_old env = Some false ->
  api_key env = None \/ api_key env = Some EmptyString ->
  (forall sql_script u,
      schema_file env = Contents sql_script ->
      executescript env sql_script = Ret u ->
      main env lines st
      = (Traceback (OtherException "name 'model' is not defined"), st))
  /\ (schema_file env = FileNotFound ->
      main env lines st = (ExitWith exiting, st)).
Proof.
  intros Hversion Hkey. unfold main, setup_database. rewrite Hversion. split.
  - intros sql_script u -> ->. destruct Hkey as [-> | ->]; reflexivity.
  - intros ->. reflexivity.
Qed.

End StartupFacts.

(** A machine with the schema in place and no key. *)
Definition keyless_environment : Environment unit := {|
  gg_version_too_old := Some false;
  api_key := None;
  configure := Ret Demo.model;
  schema_file := Contents "CREATE TABLE Demography(patient_id, age);";
  executescript := fun _ => Ret tt;
  connection := Demo.db
|}.

Lemma missing_key_outcome_witness :
  main keyless_environment ["How many patients?"; "quit"] Demo.start
  = (Traceback (OtherException "name 'model' is not defined"), Demo.start).
Proof.
  apply (proj1 (@missing_key_outcome unit _ keyless_environment
                  ["How many patients?"; "quit"] Demo.start eq_refl
                  (or_introl eq_refl))
           "CREATE TABLE Demography(patient_id, age);" tt);
    reflexivity.
Defined.

(** ** A sentinel anywhere in the answer *)

Section RawSentinel.
Context {W : Type} {console : Console W}.
Implicit Types (st : state W) (model : Model W) (db : Connection W).

(** X14.  When the answer of the synthesis holds the sentinel anywhere, be
    it inside a fence or in a sentence, the interactive turn replies with
    its fixed sentence and the web turn goes to the small talk; neither
    shows nor executes anything. *)
Theorem raw_sentinel_turn :
  (forall model db q h st stmts st1 text st2,
      fetch_schema_statements db st = (Ret stmts, st1) ->
      Forall (fun msg => parts msg <> []) h ->
      generate_content model
        (sql_prompt (join nl stmts) (join nl (map rendered h)) q) st1
      = (Ret text, st2) ->
      contains "NOT_A_QUERY" text = true ->
      query_database model q db h st = (Ret not_a_query_reply, st2))
  /\
  (forall model db q st stmts st1 text st2 (outcome : res string) st3,
      fetch_schema_statements db st = (Ret stmts, st1) ->
      generate_content model (Web.sql_prompt (join nl stmts) q) st1
      = (Ret text, st2) ->
      contains "NOT_A_QUERY" text = true ->
      generate_content model (Web.small_talk_prompt q) st2 = (outcome, st3) ->
      Web.chat_turn model db q st
      = (Ret match outcome with
             | Ret reply => reply
             | Raise e => "An error occurred: " ++ str_exn e
             end, st3)).
Proof.
  split.
  - intros model db q h st stmts st1 text st2 Hfetch Hparts Hgen Hraw.
    assert (Hsynth : _get_sql_from_llm model q (join nl stmts) h st1
                     = (Ret (cleanup text), st2)).
    { unfold _get_sql_from_llm, bind, lift, ret.
      rewrite (history_str_rendered Hparts). now rewrite Hgen. }
    assert (Hclean : contains "NOT_A_QUERY" (cleanup text) = true)
      by now apply cleanup_keeps.
    erewrite query_database_after_synthesis by eassumption.
    unfold try_except, answer_query. now rewrite Hclean.
  - intros model db q st stmts st1 text st2 outcome st3 Hfetch Hgen Hraw Htalk.
    assert (Hsynth : Web.get_sql_from_llm model q (join nl stmts) st1
                     = (Ret (cleanup text), st2)).
    { unfold Web.get_sql_from_llm, bind, ret. now rewrite Hgen. }
    assert (Hclean : contains "NOT_A_QUERY" (cleanup text) = true)
      by now apply cleanup_keeps.
    erewrite web_chat_turn_after_synthesis by eassumption.
    unfold try_except. rewrite Hclean, Htalk.
    now destruct outcome.
Qed.

End RawSentinel.

(** A model that wraps its sentinel in a fence and a remark. *)
Definition chatty_model : Model unit := {|
  generate := fun prompt w =>
    if contains "Respond conversationally" prompt then
      (Generated "Hello there!", w)
    else
      (Generated ("```sql" ++ nl ++ "NOT_A_QUERY -- this is small talk" ++ nl
                  ++ "```"), w)
|}.

Lemma raw_sentinel_turn_witness :
  fst (query_database chatty_model "hello" Demo.db [] Demo.start)
  = Ret not_a_query_reply
  /\ fst (Web.chat_turn chatty_model Demo.db "hello" Demo.start)
     = Ret "Hello there!".
Proof.
  split.
  - erewrite (proj1 (@raw_sentinel_turn unit _) chatty_model Demo.db "hello" []
                Demo.start);
      [reflexivity | reflexivity | constructor | reflexivity | reflexivity].
  - erewrite (proj2 (@raw_sentinel_turn unit _) chatty_model Demo.db "hello"
                Demo.start _ _ _ _ (Ret "Hello there!"));
      reflexivity.
Defined.

Lemma query_database_replies_after_fetch_witness :
  exists reply st',
    query_database Demo.offline_model "How many patients?" Demo.db []
      Demo.start
    = (Ret reply, st').
Proof.
  apply (@query_database_replies_after_fetch unit _ Demo.offline_model Demo.db
           "How many patients?" [] Demo.start
           ["CREATE TABLE Demography(patient_id, age)";
            "CREATE TABLE AdverseEvents(patient_id, event)"]
           {| world := tt; log := [EvCatalog] |}).
  reflexivity.
Defined.
